(** * adaptis/model/metrics.py: training metrics (AdaptiveIoU, AUC)

    A shallow embedding of the metric module and the properties of its
    natural-language specification.

    Numbers.  The Python code computes on IEEE floats; here every finite
    number is a rational ([Q]) and the one non-finite value the module can
    produce, the [nan] that numpy returns for the mean of an empty array,
    is kept as a separate constructor ([NaN]).  The array computations and
    the score accumulators are read in exact arithmetic; masking,
    filtering, the order of comparisons and the state updates follow the
    source line by line.  The threshold arithmetic of [AdaptiveIoU.update]
    (lines 55 and 61) is given twice: exact in [AdaptiveIoU.update], and
    with each Python float operation rounded in [AdaptiveIoU.update_fl],
    where [round64] is the binary64 rounding; what is stated about sizes of
    threshold moves is stated on the latter.

    Arrays.  A batch tensor of shape (N, ...spatial...) is a list of N
    samples, each sample being the flattened list of its positions.  Boolean
    arrays (mxnet stores them as 0/1 floats) are lists of [bool].  The
    caller passes [pred] and [gt] of one shape and mxnet rejects anything
    else; the elementwise operations below work on the common part of
    their operands, and every property that depends on the shapes states
    [nd.same_shape] as a hypothesis. *)

From Stdlib Require Import List Bool Arith ZArith QArith Qabs Lia Lqa.
From Stdlib Require Import PrimFloat SpecFloat FloatOps.
Import ListNotations.

Local Open Scope Q_scope.

(** ** Scalars *)

(** A Python float: a finite value or [nan]. *)
Inductive fval : Type :=
| Num (q : Q)
| NaN.

(** [x < y] on finite numbers, as a boolean. *)
Definition Qlt_b (x y : Q) : bool :=
  match x ?= y with
  | Lt => true
  | _ => false
  end.

(** [a > b] on floats: any comparison with [nan] is [False]. *)
Definition fgt (a b : fval) : bool :=
  match a, b with
  | Num x, Num y => Qlt_b y x
  | _, _ => false
  end.

Definition fadd (a b : fval) : fval :=
  match a, b with
  | Num x, Num y => Num (x + y)
  | _, _ => NaN
  end.

Definition fmul (a b : fval) : fval :=
  match a, b with
  | Num x, Num y => Num (x * y)
  | _, _ => NaN
  end.

Definition is_num (a : fval) : bool :=
  match a with
  | Num _ => true
  | NaN => false
  end.

(** ** The array layer (the mxnet / numpy operations the module calls) *)

Module nd.

Definition ndarray (A : Type) : Type := list (list A).

Fixpoint zip_with {A B C : Type} (f : A -> B -> C)
         (xs : list A) (ys : list B) : list C :=
  match xs, ys with
  | x :: xs', y :: ys' => f x y :: zip_with f xs' ys'
  | _, _ => []
  end.

(** Two arrays have the same shape: same batch size, and sample by sample
    the same number of positions. *)
Fixpoint same_shape {A B : Type} (a : ndarray A) (b : ndarray B) : bool :=
  match a, b with
  | [], [] => true
  | r :: a', s :: b' => Nat.eqb (length r) (length s) && same_shape a' b'
  | _, _ => false
  end.

(** [x > t] and [x == t] against a scalar, elementwise. *)
Definition greater_scalar (x : ndarray Q) (t : Q) : ndarray bool :=
  map (map (fun v => Qlt_b t v)) x.

Definition equal_scalar (x : ndarray Q) (t : Q) : ndarray bool :=
  map (map (fun v => Qeq_bool v t)) x.

Definition zeros_like {A : Type} (zero : A) (x : ndarray A) : ndarray A :=
  map (map (fun _ => zero)) x.

(** [mx.nd.where(cond, x, y)]: [x] where [cond] holds, [y] elsewhere. *)
Definition where_ {A : Type} (cond : ndarray bool) (x y : ndarray A)
  : ndarray A :=
  zip_with (zip_with (fun (c : bool) (p : A * A) =>
                        if c then fst p else snd p))
           cond (zip_with (@combine A A) x y).

Definition logical_or (a b : ndarray bool) : ndarray bool :=
  zip_with (zip_with orb) a b.

Definition logical_and (a b : ndarray bool) : ndarray bool :=
  zip_with (zip_with andb) a b.

(** Number of true positions of one sample. *)
Definition count (r : list bool) : nat := length (filter (fun b => b) r).

Definition of_nat (n : nat) : Q := inject_Z (Z.of_nat n).

(** [mx.nd.sum(m, axis=0, exclude=True)]: per-sample sum of a 0/1 array. *)
Definition sum_excl0 (m : ndarray bool) : list Q :=
  map (fun r => of_nat (count r)) m.

(** [mx.nd.mean(m, axis=0, exclude=True)]: per-sample mean of a 0/1
    array.  For a sample with no position at all mxnet gives [nan], which
    every later test [> 0] rejects; [Q] gives 0/0 = 0, rejected as well. *)
Definition mean_excl0 (m : ndarray bool) : list Q :=
  map (fun r => of_nat (count r) / of_nat (length r)) m.

Definition sigmoid_all (sigmoid : Q -> Q) (x : ndarray Q) : ndarray Q :=
  map (map sigmoid) x.

(** [m[i][j]] of a 0/1 array ([false] outside the array). *)
Definition at_ (m : ndarray bool) (i j : nat) : bool :=
  nth j (nth i m []) false.

End nd.

Module np.

(** [np.all(a == 0)] on a one-dimensional array. *)
Definition all_zero (a : list Q) : bool :=
  forallb (fun v => Qeq_bool v 0) a.

(** [a[mask]]: boolean-mask indexing. *)
Fixpoint getitem_mask {A : Type} (a : list A) (mask : list bool) : list A :=
  match a, mask with
  | x :: a', b :: mask' =>
      if b then x :: getitem_mask a' mask' else getitem_mask a' mask'
  | _, _ => []
  end.

(** [a[mask] = vals]: boolean-mask assignment, values taken in order. *)
Fixpoint setitem_mask {A : Type} (a : list A) (mask : list bool)
         (vals : list A) : list A :=
  match a, mask with
  | x :: a', true :: mask' =>
      match vals with
      | v :: vals' => v :: setitem_mask a' mask' vals'
      | [] => x :: setitem_mask a' mask' []
      end
  | x :: a', false :: mask' => x :: setitem_mask a' mask' vals
  | _, _ => a
  end.

Definition full_like {A B : Type} (a : list A) (v : B) : list B :=
  map (fun _ => v) a.

Definition divide (a b : list Q) : list Q := nd.zip_with Qdiv a b.

Definition sum (a : list Q) : Q := fold_left Qplus a 0.

(** [a.mean()]: numpy returns [nan] (with a warning) on an empty array. *)
Definition mean (a : list Q) : fval :=
  match a with
  | [] => NaN
  | _ :: _ => Num (sum a / nd.of_nat (length a))
  end.

End np.

(** ** The external numerical routines

    [mx.nd.sigmoid] and the pair [sklearn.metrics.precision_recall_curve] /
    [sklearn.metrics.auc] are library code outside the module: the metrics
    are parametric in them. *)
Class Backend : Type := {
  sigmoid : Q -> Q;
  (** area under the precision-recall curve of one flattened sample *)
  pr_auc : list bool -> list Q -> Q
}.

(** ** [_compute_iou] *)

(** The prediction mask after ignored positions have been zeroed. *)
Definition iou_pred_mask (pred_mask ignore_mask : nd.ndarray bool)
  : nd.ndarray bool :=
  nd.where_ ignore_mask (nd.zeros_like false pred_mask) pred_mask.

(** The two 0/1 arrays whose per-sample means are taken: a position counts
    for the union (the intersection) of its sample exactly when it is true
    in the first (the second). *)
Definition iou_union_map (pred_mask gt_mask ignore_mask : nd.ndarray bool)
  : nd.ndarray bool :=
  nd.logical_or (iou_pred_mask pred_mask ignore_mask) gt_mask.

Definition iou_intersection_map (pred_mask gt_mask ignore_mask : nd.ndarray bool)
  : nd.ndarray bool :=
  nd.logical_and (iou_pred_mask pred_mask ignore_mask) gt_mask.

Definition iou_union (pred_mask gt_mask ignore_mask : nd.ndarray bool)
  : list Q :=
  nd.mean_excl0 (iou_union_map pred_mask gt_mask ignore_mask).

Definition iou_intersection (pred_mask gt_mask ignore_mask : nd.ndarray bool)
  : list Q :=
  nd.mean_excl0 (iou_intersection_map pred_mask gt_mask ignore_mask).

Definition iou_nonzero (union : list Q) : list bool :=
  map (fun u => Qlt_b 0 u) union.

Definition _compute_iou (pred_mask gt_mask ignore_mask : nd.ndarray bool)
           (keep_ignore : bool) : list Q :=
  let union := iou_union pred_mask gt_mask ignore_mask in
  let intersection := iou_intersection pred_mask gt_mask ignore_mask in
  let nonzero := iou_nonzero union in
  let iou := np.divide (np.getitem_mask intersection nonzero)
                       (np.getitem_mask union nonzero) in
  if negb keep_ignore then iou
  else
    let result := np.full_like intersection (-1) in
    np.setitem_mask result nonzero iou.

(** ** [_compute_auc] *)

(** The body of the [for i in range(pred.shape[0])] loop, with the list
    [samples_auc] it appends to. *)
Fixpoint auc_loop `{Backend} (pred : nd.ndarray Q) (gt_mask : nd.ndarray bool)
         (samples_auc : list Q) : list Q :=
  match pred, gt_mask with
  | sample_pred :: pred', sample_gt :: gt_mask' =>
      if Nat.eqb (nd.count sample_gt) 0
      then auc_loop pred' gt_mask' samples_auc
      else auc_loop pred' gt_mask'
                    (samples_auc ++ [pr_auc sample_gt sample_pred])
  | _, _ => samples_auc
  end.

Definition _compute_auc `{Backend} (pred : nd.ndarray Q)
           (gt_mask ignore_mask : nd.ndarray bool) : list Q :=
  let pred := nd.where_ ignore_mask (nd.zeros_like 0 pred) pred in
  auc_loop pred gt_mask [].

(** ** The metric interface ([TrainMetric]) *)

Class TrainMetric (M : Type) : Type := {
  update : M -> nd.ndarray Q -> nd.ndarray Q -> M;
  get_epoch_value : M -> fval;
  reset_epoch_stats : M -> M
}.

(** [sum / count] of the epoch accumulator. *)
Definition fdiv_count (s : fval) (n : nat) : fval :=
  match s with
  | Num x => Num (x / nd.of_nat n)
  | NaN => NaN
  end.

(** The exponential moving average [beta * old + (1 - beta) * new]. *)
Definition ema (beta : Q) (old new : fval) : fval :=
  fadd (fmul (Num beta) old) (fmul (Num (1 - beta)) new).

(** ** Binary64 rounding

    The scalar arithmetic of lines 55 and 61 is carried out on Python
    floats: each operation returns the binary64 number nearest to its exact
    result.  A rounding is a function [fl : Q -> Q]; [round64] is the
    binary64 one (round to nearest, ties to even, 53 significant bits,
    gradual underflow below 2^-1022; overflow is not represented, there is
    no infinity among the rationals). *)

(** The integer nearest to [x], ties to the even one. *)
Definition round_half_even (x : Q) : Z :=
  let n := Qnum x in
  let d := Zpos (Qden x) in
  let q := (n / d)%Z in
  let r := (n mod d)%Z in
  match (2 * r ?= d)%Z with
  | Lt => q
  | Gt => (q + 1)%Z
  | Eq => if Z.even q then q else (q + 1)%Z
  end.

(** For [0 < x]: the exponent [e] with [2^e <= x < 2^(e+1)]. *)
Definition ilog2 (x : Q) : Z :=
  let e0 := (Z.log2 (Qnum x) - Z.log2 (Zpos (Qden x)) - 1)%Z in
  if Qle_bool (2 ^ (e0 + 1)) x then (e0 + 1)%Z else e0.

Definition round64 (x : Q) : Q :=
  if Qeq_bool x 0 then 0
  else
    let e := Z.max (ilog2 (Qabs x)) (-1022) in
    let quantum := 2 ^ (e - 52) in
    Qred (inject_Z (round_half_even (x / quantum)) * quantum).

(** The rational value of a finite binary64 number of the kernel. *)
Definition Q_of_float (f : float) : Q :=
  match Prim2SF f with
  | S754_finite s m e =>
      Qred ((if s then - inject_Z (Zpos m) else inject_Z (Zpos m)) * 2 ^ e)
  | _ => 0
  end.

(** A rounding has relative error at most [u] at [x]. *)
Definition rounds_within (fl : Q -> Q) (u x : Q) : Prop :=
  Qabs (fl x - x) <= u * Qabs x.

(** ** [AdaptiveIoU] *)

Module AdaptiveIoU.

Record t : Type := mk {
  _ignore_label : Q;
  _from_logits : bool;
  _iou_thresh : Q;
  _thresh_step : Q;
  _thresh_beta : Q;
  _iou_beta : Q;
  _ema_iou : fval;
  _epoch_iou_sum : fval;
  _epoch_batch_count : nat
}.

Definition init (init_thresh thresh_step thresh_beta iou_beta ignore_label : Q)
           (from_logits : bool) : t :=
  {| _ignore_label := ignore_label;
     _from_logits := from_logits;
     _iou_thresh := init_thresh;
     _thresh_step := thresh_step;
     _thresh_beta := thresh_beta;
     _iou_beta := iou_beta;
     _ema_iou := Num 0;
     _epoch_iou_sum := Num 0;
     _epoch_batch_count := 0 |}.

(** The constructor's default arguments. *)
Definition default (from_logits : bool) : t :=
  init (4 # 10) (25 # 1000) (99 # 100) (9 # 10) (-1) from_logits.

(** One round of the [for t in [...]] loop: the candidate replaces the
    incumbent only when its score is strictly greater. *)
Definition search_step (score : Q -> fval) (acc : fval * Q) (t : Q)
  : fval * Q :=
  let '(max_iou, best_thresh) := acc in
  let temp_iou := score t in
  if fgt temp_iou max_iou then (temp_iou, t) else (max_iou, best_thresh).

(** Lines 53-59: the score of the current threshold, then the loop over
    the two perturbed thresholds.  Returns [(max_iou, best_thresh)]. *)
Definition threshold_search (score : Q -> fval) (iou_thresh thresh_step : Q)
  : fval * Q :=
  let max_iou := score iou_thresh in
  let best_thresh := iou_thresh in
  fold_left (search_step score)
            [best_thresh - thresh_step; best_thresh + thresh_step]
            (max_iou, best_thresh).

(** The predictions the search works on: through the logistic when the
    metric was built with [from_logits]. *)
Definition probabilities `{Backend} (self : t) (pred : nd.ndarray Q)
  : nd.ndarray Q :=
  if _from_logits self then nd.sigmoid_all sigmoid pred else pred.

(** The score of one candidate threshold [c]:
    [_compute_iou(pred > c, gt_mask, ignore_mask).mean()]. *)
Definition candidate_score (pred : nd.ndarray Q)
           (gt_mask ignore_mask : nd.ndarray bool) (c : Q) : fval :=
  np.mean (_compute_iou (nd.greater_scalar pred c) gt_mask ignore_mask false).

Definition update `{Backend} (self : t) (pred gt : nd.ndarray Q) : t :=
  let gt_mask := nd.greater_scalar gt 0 in
  let pred := probabilities self pred in
  let gt_mask_area := nd.sum_excl0 gt_mask in
  if np.all_zero gt_mask_area then self
  else
    let ignore_mask := nd.equal_scalar gt (_ignore_label self) in
    let '(max_iou, best_thresh) :=
      threshold_search (candidate_score pred gt_mask ignore_mask)
                       (_iou_thresh self) (_thresh_step self) in
    {| _ignore_label := _ignore_label self;
       _from_logits := _from_logits self;
       _iou_thresh := _thresh_beta self * _iou_thresh self
                      + (1 - _thresh_beta self) * best_thresh;
       _thresh_step := _thresh_step self;
       _thresh_beta := _thresh_beta self;
       _iou_beta := _iou_beta self;
       _ema_iou := ema (_iou_beta self) (_ema_iou self) max_iou;
       _epoch_iou_sum := fadd (_epoch_iou_sum self) max_iou;
       _epoch_batch_count := _epoch_batch_count self + 1 |}.

Definition get_epoch_value (self : t) : fval :=
  if Nat.ltb 0 (_epoch_batch_count self)
  then fdiv_count (_epoch_iou_sum self) (_epoch_batch_count self)
  else Num 0.

Definition reset_epoch_stats (self : t) : t :=
  {| _ignore_label := _ignore_label self;
     _from_logits := _from_logits self;
     _iou_thresh := _iou_thresh self;
     _thresh_step := _thresh_step self;
     _thresh_beta := _thresh_beta self;
     _iou_beta := _iou_beta self;
     _ema_iou := _ema_iou self;
     _epoch_iou_sum := Num 0;
     _epoch_batch_count := 0 |}.

Definition iou_thresh (self : t) : Q := _iou_thresh self.


(** *** The threshold arithmetic with its roundings

    [update_fl fl] is [update] with every operation of lines 55 and 61
    rounded by [fl], as Python does on its floats; the score accumulators
    are those of [update].  [update] itself is [update_fl] for the exact
    rounding [fun x => x]. *)

(** Lines 53-59 for given perturbed candidates [lower] and [upper]. *)
Definition search_candidates (score : Q -> fval) (iou_thresh lower upper : Q)
  : fval * Q :=
  fold_left (search_step score) [lower; upper] (score iou_thresh, iou_thresh).

(** Line 61: [beta * old + (1 - beta) * best], four rounded operations. *)
Definition blend_fl (fl : Q -> Q) (beta old best : Q) : Q :=
  fl (fl (beta * old) + fl (fl (1 - beta) * best)).

Definition update_fl (fl : Q -> Q) `{Backend} (self : t)
           (pred gt : nd.ndarray Q) : t :=
  let gt_mask := nd.greater_scalar gt 0 in
  let pred := probabilities self pred in
  let gt_mask_area := nd.sum_excl0 gt_mask in
  if np.all_zero gt_mask_area then self
  else
    let ignore_mask := nd.equal_scalar gt (_ignore_label self) in
    let '(max_iou, best_thresh) :=
      search_candidates (candidate_score pred gt_mask ignore_mask)
                        (_iou_thresh self)
                        (fl (_iou_thresh self - _thresh_step self))
                        (fl (_iou_thresh self + _thresh_step self)) in
    {| _ignore_label := _ignore_label self;
       _from_logits := _from_logits self;
       _iou_thresh := blend_fl fl (_thresh_beta self) (_iou_thresh self)
                               best_thresh;
       _thresh_step := _thresh_step self;
       _thresh_beta := _thresh_beta self;
       _iou_beta := _iou_beta self;
       _ema_iou := ema (_iou_beta self) (_ema_iou self) max_iou;
       _epoch_iou_sum := fadd (_epoch_iou_sum self) max_iou;
       _epoch_batch_count := _epoch_batch_count self + 1 |}.

(** The exact results that line 61 rounds when it blends [old] with
    [best]. *)
Definition blend_operands (fl : Q -> Q) (beta old best : Q) : list Q :=
  [beta * old; 1 - beta; fl (1 - beta) * best;
   fl (beta * old) + fl (fl (1 - beta) * best)].

(** Every exact result that lines 55 and 61 may round in one update:
    the two perturbed candidates, and the blend with each of the three
    candidates. *)
Definition rounding_operands (fl : Q -> Q) (self : t) : list Q :=
  let t := _iou_thresh self in
  let step := _thresh_step self in
  let beta := _thresh_beta self in
  [t - step; t + step]
    ++ blend_operands fl beta t t
    ++ blend_operands fl beta t (fl (t - step))
    ++ blend_operands fl beta t (fl (t + step)).

(** The constructor called with the Python literals of its default
    arguments: each is the binary64 number nearest to the decimal. *)
Definition default64 (from_logits : bool) : t :=
  init (round64 (4 # 10)) (round64 (25 # 1000)) (round64 (99 # 100))
       (round64 (9 # 10)) (-1) from_logits.

End AdaptiveIoU.

#[export] Instance AdaptiveIoU_metric `{Backend} : TrainMetric AdaptiveIoU.t := {
  update := AdaptiveIoU.update;
  get_epoch_value := AdaptiveIoU.get_epoch_value;
  reset_epoch_stats := AdaptiveIoU.reset_epoch_stats
}.

(** ** [AUC] *)

Module AUC.

Record t : Type := mk {
  _ignore_label : Q;
  _from_logits : bool;
  _beta : Q;
  _ema_auc : fval;
  _epoch_auc_sum : fval;
  _epoch_batch_count : nat
}.

Definition init (beta ignore_label : Q) (from_logits : bool) : t :=
  {| _ignore_label := ignore_label;
     _from_logits := from_logits;
     _beta := beta;
     _ema_auc := Num 0;
     _epoch_auc_sum := Num 0;
     _epoch_batch_count := 0 |}.

Definition default (from_logits : bool) : t := init (9 # 10) (-1) from_logits.

Definition probabilities `{Backend} (self : t) (pred : nd.ndarray Q)
  : nd.ndarray Q :=
  if _from_logits self then nd.sigmoid_all sigmoid pred else pred.

Definition update `{Backend} (self : t) (pred gt : nd.ndarray Q) : t :=
  let gt_mask := nd.greater_scalar gt 0 in
  let pred := probabilities self pred in
  let gt_mask_area := nd.sum_excl0 gt_mask in
  if np.all_zero gt_mask_area then self
  else
    let ignore_mask := nd.equal_scalar gt (_ignore_label self) in
    let auc := np.mean (_compute_auc pred gt_mask ignore_mask) in
    {| _ignore_label := _ignore_label self;
       _from_logits := _from_logits self;
       _beta := _beta self;
       _ema_auc := ema (_beta self) (_ema_auc self) auc;
       _epoch_auc_sum := fadd (_epoch_auc_sum self) auc;
       _epoch_batch_count := _epoch_batch_count self + 1 |}.

Definition get_epoch_value (self : t) : fval :=
  if Nat.ltb 0 (_epoch_batch_count self)
  then fdiv_count (_epoch_auc_sum self) (_epoch_batch_count self)
  else Num 0.

Definition reset_epoch_stats (self : t) : t :=
  {| _ignore_label := _ignore_label self;
     _from_logits := _from_logits self;
     _beta := _beta self;
     _ema_auc := _ema_auc self;
     _epoch_auc_sum := Num 0;
     _epoch_batch_count := 0 |}.

End AUC.

#[export] Instance AUC_metric `{Backend} : TrainMetric AUC.t := {
  update := AUC.update;
  get_epoch_value := AUC.get_epoch_value;
  reset_epoch_stats := AUC.reset_epoch_stats
}.

(** The training loop: one [update] per batch, in order. *)
Definition run_updates {M : Type} `{TrainMetric M} (self : M)
           (batches : list (nd.ndarray Q * nd.ndarray Q)) : M :=
  fold_left (fun m b => update m (fst b) (snd b)) batches self.

(** A rational squashing function with values strictly between 0 and 1,
    and a constant curve area: a concrete backend to evaluate the metrics
    on examples. *)
Definition rational_backend : Backend :=
  {| sigmoid := fun x => (1 + x / (1 + Qabs x)) / 2;
     pr_auc := fun _ _ => 1 |}.

(** Scenario A of the specification, on a 2x2 block in a 4x4 frame:
    the current threshold already separates perfectly. *)
Definition scenario_pred : nd.ndarray Q :=
  [[9 # 10; 9 # 10; 1 # 10; 1 # 10; 9 # 10; 9 # 10; 1 # 10; 1 # 10;
    1 # 10; 1 # 10; 1 # 10; 1 # 10; 1 # 10; 1 # 10; 1 # 10; 1 # 10]].

Definition scenario_gt : nd.ndarray Q :=
  [[1; 1; 0; 0; 1; 1; 0; 0; 0; 0; 0; 0; 0; 0; 0; 0]].

(** ** The overlap computation read sample by sample

    What [_compute_iou] does to one sample of the batch; the lemmas below
    relate these to the array operations above. *)

(** One sample's prediction row with the ignored positions cleared. *)
Definition clear_ignored (ignore_row pred_row : list bool) : list bool :=
  nd.zip_with (fun c p => negb c && p) ignore_row pred_row.

(** The mean of a 0/1 row. *)
Definition row_mean (r : list bool) : Q :=
  nd.of_nat (nd.count r) / nd.of_nat (length r).

Definition row_union (p g i : list bool) : Q :=
  row_mean (nd.zip_with orb (clear_ignored i p) g).

Definition row_intersection (p g i : list bool) : Q :=
  row_mean (nd.zip_with andb (clear_ignored i p) g).

(** The value stored for a sample and the test that retains it. *)
Definition iou_ratio (iu : Q * Q) : Q := fst iu / snd iu.
Definition iou_retained (iu : Q * Q) : bool := Qlt_b 0 (snd iu).

(** Closes comparisons between rational constants. *)
Ltac qconst := unfold Qle, Qlt; simpl; lia.

(** ** Vocabulary for the properties of the whole module *)

(** Three lists related position by position (in particular of one
    length). *)
Inductive Forall3 {A B C : Type} (R : A -> B -> C -> Prop)
  : list A -> list B -> list C -> Prop :=
| Forall3_nil : Forall3 R [] [] []
| Forall3_cons (x : A) (y : B) (z : C) (a : list A) (b : list B)
               (c : list C) :
    R x y z -> Forall3 R a b c -> Forall3 R (x :: a) (y :: b) (z :: c).

(** Two arrays of the shape of [ignore_mask] that hold the same value at
    every position the mask does not ignore. *)
Definition agree_off {A : Type} (ignore_mask : nd.ndarray bool)
           (x y : nd.ndarray A) : Prop :=
  Forall3 (Forall3 (fun (c : bool) (a b : A) => c = false -> a = b))
          ignore_mask x y.

(** No position is true in both 0/1 arrays (which have one shape). *)
Definition disjoint_masks (a b : nd.ndarray bool) : Prop :=
  Forall2 (Forall2 (fun x y => x && y = false)) a b.

(** A score that is a number of [0, 1]. *)
Definition unit_score (a : fval) : Prop :=
  exists q, a = Num q /\ 0 <= q <= 1.

(** The test of lines 48-50 and 101-103, negated: some sample of the
    batch has a positive ground-truth pixel. *)
Definition passes_guard (gt : nd.ndarray Q) : bool :=
  negb (np.all_zero (nd.sum_excl0 (nd.greater_scalar gt 0))).

(** The running scores of the adaptive metric are in range: the EMA is a
    number of [0, 1] and the epoch sum a number between 0 and the epoch
    count. *)
Definition iou_scores_in_range (self : AdaptiveIoU.t) : Prop :=
  unit_score (AdaptiveIoU._ema_iou self)
  /\ exists s, AdaptiveIoU._epoch_iou_sum self = Num s
               /\ 0 <= s <= nd.of_nat (AdaptiveIoU._epoch_batch_count self).

Definition auc_scores_in_range (self : AUC.t) : Prop :=
  unit_score (AUC._ema_auc self)
  /\ exists s, AUC._epoch_auc_sum self = Num s
               /\ 0 <= s <= nd.of_nat (AUC._epoch_batch_count self).

(** Builds position-wise relations between concrete arrays. *)
Ltac pointwise :=
  repeat first [ apply Forall3_cons | apply Forall3_nil
               | apply Forall2_cons | apply Forall2_nil
               | apply Forall_cons | apply Forall_nil
               | intro; first [reflexivity | discriminate]
               | reflexivity ].

(** Decides comparisons between computed rationals. *)
Ltac qdecide :=
  first [ apply Qle_bool_iff; vm_compute; reflexivity
        | apply Qlt_alt; vm_compute; reflexivity ].

(** * Properties *)

(** ** Scalars and rows *)

Lemma Qlt_b_true (x y : Q) : Qlt_b x y = true <-> x < y.
Proof.
  unfold Qlt_b. rewrite Qlt_alt.
  destruct (x ?= y); split; intro E; congruence.
Qed.

Lemma Qlt_b_false (x y : Q) : Qlt_b x y = false <-> y <= x.
Proof.
  rewrite <- not_true_iff_false, Qlt_b_true.
  split; [apply Qnot_lt_le | apply Qle_not_lt].
Qed.

Lemma fgt_irrefl (a : fval) : fgt a a = false.
Proof.
  destruct a as [q|]; simpl; trivial.
  apply Qlt_b_false, Qle_refl.
Qed.

Lemma fgt_asym (a b : fval) : fgt a b = true -> fgt b a = false.
Proof.
  destruct a as [x|], b as [y|]; simpl; try discriminate; trivial.
  rewrite Qlt_b_true, Qlt_b_false. apply Qlt_le_weak.
Qed.

Lemma fgt_trans (a b c : fval) :
  fgt a b = true -> fgt b c = true -> fgt a c = true.
Proof.
  destruct a as [x|], b as [y|], c as [z|]; simpl; try discriminate.
  rewrite !Qlt_b_true. intros U V. apply (Qlt_trans _ _ _ V U).
Qed.

(** [a] does not beat [b], and [c] beats [b]: then [a] does not beat [c]. *)
Lemma fgt_below (a b c : fval) :
  fgt a b = false -> fgt c b = true -> fgt a c = false.
Proof.
  destruct a as [x|], b as [y|], c as [z|]; simpl; try discriminate; trivial.
  rewrite !Qlt_b_false, Qlt_b_true. intros U V.
  apply Qlt_le_weak, (Qle_lt_trans _ _ _ U V).
Qed.

Lemma of_nat_nonneg (n : nat) : 0 <= nd.of_nat n.
Proof.
  unfold nd.of_nat, Qle; simpl. lia.
Qed.

Lemma of_nat_le (n m : nat) : (n <= m)%nat -> nd.of_nat n <= nd.of_nat m.
Proof.
  intro L. unfold nd.of_nat, Qle; simpl. lia.
Qed.

Lemma of_nat_pos (n : nat) : 0 < nd.of_nat n <-> (0 < n)%nat.
Proof.
  unfold nd.of_nat, Qlt; simpl. lia.
Qed.

Lemma of_nat_zero (n : nat) : Qeq_bool (nd.of_nat n) 0 = true <-> n = 0%nat.
Proof.
  rewrite Qeq_bool_iff. unfold nd.of_nat, Qeq; simpl. lia.
Qed.

Lemma zip_with_length {A B C : Type} (f : A -> B -> C) (xs : list A)
      (ys : list B) :
  length (nd.zip_with f xs ys) = Nat.min (length xs) (length ys).
Proof.
  revert ys. induction xs as [|x xs IH]; intros [|y ys]; simpl; auto.
Qed.

Lemma count_le_length (r : list bool) : (nd.count r <= length r)%nat.
Proof.
  unfold nd.count. apply filter_length_le.
Qed.

Lemma count_cons (b : bool) (r : list bool) :
  nd.count (b :: r) = ((if b then 1 else 0) + nd.count r)%nat.
Proof.
  unfold nd.count. destruct b; reflexivity.
Qed.

(** A row has no true position exactly when its count is zero. *)
Lemma count_zero (r : list bool) :
  nd.count r = 0%nat <-> Forall (fun b => b = false) r.
Proof.
  induction r as [|b r IH]; [split; auto|].
  rewrite count_cons. split.
  - destruct b; [discriminate|]. intro E. constructor; tauto.
  - intro F. inversion F; subst. simpl. tauto.
Qed.

(** Pointwise implication between two rows orders their counts. *)
Lemma count_mono (a b : list bool) :
  Forall2 (fun x y => x = true -> y = true) a b ->
  (nd.count a <= nd.count b)%nat.
Proof.
  induction 1 as [|x y a b Hxy _ IH]; [auto|].
  rewrite !count_cons.
  destruct x, y; simpl; lia.
Qed.

(** ** The overlap computation, sample by sample *)

(** Simultaneous induction on the three arrays of [_compute_iou]. *)
Lemma batch_ind {A B C : Type} (P : list A -> list B -> list C -> Prop) :
  (forall a b c, a = [] \/ b = [] \/ c = [] -> P a b c) ->
  (forall x y z a b c, P a b c -> P (x :: a) (y :: b) (z :: c)) ->
  forall a b c, P a b c.
Proof.
  intros Hnil Hcons. induction a as [|x a IH]; intros b c.
  - apply Hnil; auto.
  - destruct b as [|y b]; [apply Hnil; auto|].
    destruct c as [|z c]; [apply Hnil; auto|].
    apply Hcons, IH.
Qed.

Lemma where_zeros_row (i p : list bool) :
  nd.zip_with (fun (c : bool) (xy : bool * bool) =>
                 if c then fst xy else snd xy)
              i (combine (map (fun _ => false) p) p)
  = clear_ignored i p.
Proof.
  unfold clear_ignored. revert p.
  induction i as [|c i IH]; intros [|x p]; simpl; trivial.
  rewrite IH. destruct c; reflexivity.
Qed.

Lemma iou_pred_mask_nil_l (ign : nd.ndarray bool) : iou_pred_mask [] ign = [].
Proof. destruct ign; reflexivity. Qed.

Lemma iou_pred_mask_cons (p i : list bool) (pm ign : nd.ndarray bool) :
  iou_pred_mask (p :: pm) (i :: ign)
  = clear_ignored i p :: iou_pred_mask pm ign.
Proof.
  unfold iou_pred_mask, nd.where_, nd.zeros_like. simpl.
  now rewrite where_zeros_row.
Qed.

Lemma iou_union_nil (pm gm ign : nd.ndarray bool) :
  pm = [] \/ gm = [] \/ ign = [] -> iou_union pm gm ign = [].
Proof.
  unfold iou_union, iou_union_map. intros [-> | [-> | ->]].
  - now rewrite iou_pred_mask_nil_l.
  - now destruct (iou_pred_mask pm ign).
  - reflexivity.
Qed.

Lemma iou_union_cons (p g i : list bool) (pm gm ign : nd.ndarray bool) :
  iou_union (p :: pm) (g :: gm) (i :: ign)
  = row_union p g i :: iou_union pm gm ign.
Proof.
  unfold iou_union, iou_union_map. now rewrite iou_pred_mask_cons.
Qed.

Lemma iou_intersection_nil (pm gm ign : nd.ndarray bool) :
  pm = [] \/ gm = [] \/ ign = [] -> iou_intersection pm gm ign = [].
Proof.
  unfold iou_intersection, iou_intersection_map. intros [-> | [-> | ->]].
  - now rewrite iou_pred_mask_nil_l.
  - now destruct (iou_pred_mask pm ign).
  - reflexivity.
Qed.

Lemma iou_intersection_cons (p g i : list bool) (pm gm ign : nd.ndarray bool) :
  iou_intersection (p :: pm) (g :: gm) (i :: ign)
  = row_intersection p g i :: iou_intersection pm gm ign.
Proof.
  unfold iou_intersection, iou_intersection_map.
  now rewrite iou_pred_mask_cons.
Qed.

(** Intersection and union arrays always have one entry per sample of the
    (common part of the) batch, hence the same length. *)
Lemma iou_arrays_length (pm gm ign : nd.ndarray bool) :
  length (iou_intersection pm gm ign) = length (iou_union pm gm ign).
Proof.
  revert pm gm ign. apply batch_ind.
  - intros a b c E. now rewrite iou_union_nil, iou_intersection_nil.
  - intros x y z a b c IH.
    rewrite iou_union_cons, iou_intersection_cons. simpl. now rewrite IH.
Qed.

(** Within one sample the intersection never exceeds the union: both rows
    are cut to the same length, and [andb] implies [orb] position by
    position. *)
Lemma and_or_rows (a b : list bool) :
  Forall2 (fun x y => x = true -> y = true)
          (nd.zip_with andb a b) (nd.zip_with orb a b).
Proof.
  revert b. induction a as [|x a IH]; intros [|y b]; simpl; constructor.
  - destruct x, y; simpl; auto.
  - apply IH.
Qed.

Lemma and_or_rows_length (a b : list bool) :
  length (nd.zip_with andb a b) = length (nd.zip_with orb a b).
Proof. now rewrite !zip_with_length. Qed.

Lemma Qdiv_nonneg (a b : Q) : 0 <= a -> 0 <= b -> 0 <= a / b.
Proof.
  intros Ha Hb. unfold Qdiv.
  apply Qmult_le_0_compat; [assumption|].
  apply Qinv_le_0_compat; assumption.
Qed.

Lemma Qdiv_le_mono (a b c : Q) : 0 <= c -> a <= b -> a / c <= b / c.
Proof.
  intros Hc Hab. unfold Qdiv.
  apply Qmult_le_compat_r; [assumption|].
  apply Qinv_le_0_compat; assumption.
Qed.

Lemma row_mean_nonneg (r : list bool) : 0 <= row_mean r.
Proof. apply Qdiv_nonneg; apply of_nat_nonneg. Qed.

(** A row mean is positive exactly when the row has a true position. *)
Lemma row_mean_pos (r : list bool) : 0 < row_mean r <-> (0 < nd.count r)%nat.
Proof.
  unfold row_mean. split.
  - intro Hpos. destruct (nd.count r) eqn:E; [|lia].
    exfalso. unfold Qdiv in Hpos. rewrite Qmult_0_l in Hpos.
    now apply Qlt_irrefl in Hpos.
  - intro Hc. pose proof (count_le_length r) as L.
    apply Qlt_shift_div_l.
    + apply of_nat_pos. lia.
    + rewrite Qmult_0_l. apply of_nat_pos. lia.
Qed.

Lemma row_intersection_le_union (p g i : list bool) :
  row_intersection p g i <= row_union p g i.
Proof.
  unfold row_intersection, row_union, row_mean.
  rewrite and_or_rows_length.
  apply Qdiv_le_mono; [apply of_nat_nonneg|].
  apply of_nat_le, count_mono, and_or_rows.
Qed.

Lemma inter_union_bounds (pm gm ign : nd.ndarray bool) :
  Forall2 (fun i u => 0 <= i /\ i <= u)
          (iou_intersection pm gm ign) (iou_union pm gm ign).
Proof.
  revert pm gm ign. apply batch_ind.
  - intros a b c E. rewrite iou_union_nil, iou_intersection_nil by exact E.
    constructor.
  - intros x y z a b c IH.
    rewrite iou_union_cons, iou_intersection_cons. constructor; [|exact IH].
    split; [apply row_mean_nonneg | apply row_intersection_le_union].
Qed.

Lemma ratio_in_unit (i u : Q) : 0 <= i -> i <= u -> 0 < u -> 0 <= i / u <= 1.
Proof.
  intros Hi Hiu Hu. split.
  - apply Qdiv_nonneg; [assumption | now apply Qlt_le_weak].
  - apply Qle_shift_div_r; [assumption|]. now rewrite Qmult_1_l.
Qed.

(** Boolean-mask selection followed by the elementwise division, read as a
    filter over the (intersection, union) pairs. *)
Lemma divide_getitem (inter union : list Q) :
  np.divide (np.getitem_mask inter (iou_nonzero union))
            (np.getitem_mask union (iou_nonzero union))
  = map iou_ratio (filter iou_retained (combine inter union)).
Proof.
  revert union. induction inter as [|i inter IH]; intros [|u union];
    simpl; trivial.
  unfold iou_retained at 1. simpl.
  destruct (Qlt_b 0 u); simpl; now rewrite <- IH.
Qed.

(** The divisors of that division are the selected unions: all positive. *)
Lemma divisors_positive (union : list Q) :
  Forall (fun u => 0 < u) (np.getitem_mask union (iou_nonzero union)).
Proof.
  induction union as [|u union IH]; simpl; [constructor|].
  destruct (Qlt_b 0 u) eqn:E; [|exact IH].
  constructor; [now apply Qlt_b_true | exact IH].
Qed.

(** Mask assignment into the array filled with -1. *)
Lemma setitem_full (inter union : list Q) :
  length inter = length union ->
  np.setitem_mask (np.full_like inter (-1)) (iou_nonzero union)
                  (np.divide (np.getitem_mask inter (iou_nonzero union))
                             (np.getitem_mask union (iou_nonzero union)))
  = map (fun iu => if iou_retained iu then iou_ratio iu else -1)
        (combine inter union).
Proof.
  revert union. induction inter as [|i inter IH]; intros [|u union];
    simpl; try discriminate; trivial.
  intro L. injection L as L. specialize (IH union L).
  unfold iou_retained at 1. simpl.
  destruct (Qlt_b 0 u); simpl; now rewrite <- IH.
Qed.

Lemma compute_iou_drop (pm gm ign : nd.ndarray bool) :
  _compute_iou pm gm ign false
  = map iou_ratio
        (filter iou_retained
                (combine (iou_intersection pm gm ign) (iou_union pm gm ign))).
Proof. unfold _compute_iou. simpl. apply divide_getitem. Qed.

Lemma compute_iou_keep (pm gm ign : nd.ndarray bool) :
  _compute_iou pm gm ign true
  = map (fun iu => if iou_retained iu then iou_ratio iu else -1)
        (combine (iou_intersection pm gm ign) (iou_union pm gm ign)).
Proof. unfold _compute_iou. simpl. apply setitem_full, iou_arrays_length. Qed.

Lemma retained_length (inter union : list Q) :
  length inter = length union ->
  length (filter iou_retained (combine inter union))
  = length (filter (fun u => Qlt_b 0 u) union).
Proof.
  revert union. induction inter as [|i inter IH]; intros [|u union] L;
    simpl in *; try discriminate; trivial.
  unfold iou_retained at 1. simpl.
  destruct (Qlt_b 0 u); simpl; rewrite IH; auto.
Qed.

(** C7.  A sample contributes intersection/union only when its union is
    strictly positive: every divisor of the elementwise division is
    positive; without keep-ignore the samples of zero union are dropped (the
    result is the ratios of the retained samples, in order); with
    keep-ignore the result has one entry per sample, the ratio where the
    union is positive and the sentinel -1 elsewhere. *)
Theorem compute_iou_drops_or_fills (pm gm ign : nd.ndarray bool) :
  let inter := iou_intersection pm gm ign in
  let union := iou_union pm gm ign in
  Forall (fun u => 0 < u) (np.getitem_mask union (iou_nonzero union))
  /\ _compute_iou pm gm ign false
     = map iou_ratio (filter iou_retained (combine inter union))
  /\ length (_compute_iou pm gm ign false)
     = length (filter (fun u => Qlt_b 0 u) union)
  /\ length (_compute_iou pm gm ign true) = length union
  /\ Forall2 (fun iu v => if Qlt_b 0 (snd iu) then v = fst iu / snd iu
                          else v = -1)
             (combine inter union) (_compute_iou pm gm ign true).
Proof.
  intros inter union. subst inter union.
  split; [apply divisors_positive|].
  split; [apply compute_iou_drop|].
  pose proof (iou_arrays_length pm gm ign) as L.
  split; [|split].
  - rewrite compute_iou_drop, length_map. now apply retained_length.
  - rewrite compute_iou_keep, length_map, length_combine, L.
    apply Nat.min_id.
  - rewrite compute_iou_keep.
    induction (combine (iou_intersection pm gm ign) (iou_union pm gm ign))
      as [|iu l IH]; simpl; constructor.
    + unfold iou_retained, iou_ratio. destruct (Qlt_b 0 (snd iu)); reflexivity.
    + exact IH.
Qed.

(** C6.  Every value returned for a retained sample lies in [0, 1]: all
    values of the default mode, and in keep-ignore mode the values at the
    samples of positive union (the others hold the sentinel). *)
Theorem compute_iou_in_unit_interval (pm gm ign : nd.ndarray bool) :
  Forall (fun v => 0 <= v <= 1) (_compute_iou pm gm ign false)
  /\ Forall2 (fun u v => 0 < u -> 0 <= v <= 1)
             (iou_union pm gm ign) (_compute_iou pm gm ign true).
Proof.
  rewrite compute_iou_drop, compute_iou_keep.
  pose proof (inter_union_bounds pm gm ign) as B.
  induction B as [|i u inter union [Hi Hiu] _ [IH1 IH2]]; simpl.
  - split; constructor.
  - assert (R : iou_retained (i, u) = Qlt_b 0 u) by reflexivity.
    rewrite R. split.
    + destruct (Qlt_b 0 u) eqn:E; [|exact IH1].
      constructor; [|exact IH1].
      apply ratio_in_unit; trivial. now apply Qlt_b_true.
    + constructor; [|exact IH2].
      intro Hu. apply Qlt_b_true in Hu as E. rewrite E.
      now apply ratio_in_unit.
Qed.

(** ** Ignored positions *)

Lemma same_shape_cons {A B : Type} (r : list A) (s : list B)
      (a : nd.ndarray A) (b : nd.ndarray B) :
  nd.same_shape (r :: a) (s :: b) = true
  <-> length r = length s /\ nd.same_shape a b = true.
Proof.
  simpl. now rewrite andb_true_iff, Nat.eqb_eq.
Qed.

Lemma same_shape_refl {A : Type} (a : nd.ndarray A) : nd.same_shape a a = true.
Proof.
  induction a as [|r a IH]; [reflexivity|].
  apply same_shape_cons. auto.
Qed.

Lemma same_shape_map {A B A' B' : Type} (f : A -> A') (g : B -> B')
      (a : nd.ndarray A) (b : nd.ndarray B) :
  nd.same_shape (map (map f) a) (map (map g) b) = nd.same_shape a b.
Proof.
  revert b. induction a as [|r a IH]; intros [|s b]; simpl; trivial.
  now rewrite !length_map, IH.
Qed.

Lemma same_shape_map_l {A B A' : Type} (f : A -> A')
      (a : nd.ndarray A) (b : nd.ndarray B) :
  nd.same_shape (map (map f) a) b = nd.same_shape a b.
Proof.
  revert b. induction a as [|r a IH]; intros [|s b]; simpl; trivial.
  now rewrite !length_map, IH.
Qed.

(** Within one sample: an ignored position is false in the intersection
    row, and in the union row it is whatever the ground truth is there. *)
Lemma ignored_position_row (p g i : list bool) (j : nat) :
  length p = length g -> length i = length g ->
  nth j i false = true ->
  nth j (nd.zip_with andb (clear_ignored i p) g) false = false
  /\ nth j (nd.zip_with orb (clear_ignored i p) g) false = nth j g false.
Proof.
  unfold clear_ignored. revert p g j.
  induction i as [|c i IH]; intros [|x p] [|y g] [|j]; simpl;
    try discriminate; intros Lp Li Hj.
  - subst c. simpl. auto.
  - apply IH; auto.
Qed.

(** C4 (amended).  Ignored positions are cleared in the prediction mask
    only.  At a position where [ignore_mask] is true, the position never
    counts for the intersection of its sample, and it counts for the union
    exactly when [gt_mask] is true there; so it counts for neither when the
    ground truth is not positive at that position. *)
Theorem ignored_position_contribution (pm gm ign : nd.ndarray bool)
        (i j : nat) :
  nd.same_shape pm gm = true -> nd.same_shape ign gm = true ->
  nd.at_ ign i j = true ->
  nd.at_ (iou_intersection_map pm gm ign) i j = false
  /\ nd.at_ (iou_union_map pm gm ign) i j = nd.at_ gm i j
  /\ (nd.at_ gm i j = false -> nd.at_ (iou_union_map pm gm ign) i j = false).
Proof.
  intros Sp Si Hij.
  enough (E : nd.at_ (iou_intersection_map pm gm ign) i j = false
              /\ nd.at_ (iou_union_map pm gm ign) i j = nd.at_ gm i j).
  { destruct E as [E1 E2]. repeat split; trivial. intro G. now rewrite E2. }
  unfold nd.at_, iou_intersection_map, iou_union_map,
    nd.logical_and, nd.logical_or in *.
  revert pm ign i Sp Si Hij.
  induction gm as [|g gm IH]; intros [|p pm] [|r ign] i Sp Si Hij;
    try discriminate.
  - destruct i, j; discriminate.
  - apply same_shape_cons in Sp as [Lp Sp], Si as [Li Si].
    rewrite iou_pred_mask_cons. destruct i as [|i]; simpl in *.
    + now apply ignored_position_row.
    + now apply IH.
Qed.

(** ** Raising the threshold *)

(** Raising the threshold can only turn predicted positions off, so with
    any position-wise monotone combination [op] the combined row at the
    higher threshold implies the one at the lower threshold. *)
Lemma threshold_rows (op : bool -> bool -> bool) (x : list Q)
      (g i : list bool) (t1 t2 : Q) :
  (forall a b c, (a = true -> b = true) -> op a c = true -> op b c = true) ->
  t1 < t2 ->
  Forall2 (fun a b => a = true -> b = true)
          (nd.zip_with op (clear_ignored i (map (fun v => Qlt_b t2 v) x)) g)
          (nd.zip_with op (clear_ignored i (map (fun v => Qlt_b t1 v) x)) g).
Proof.
  intros Hop Ht. unfold clear_ignored. revert g i.
  induction x as [|v x IH]; intros [|y g] [|c i]; simpl; try constructor.
  - apply Hop. destruct c; simpl; trivial.
    rewrite !Qlt_b_true. intro L. apply (Qlt_trans _ _ _ Ht L).
  - apply IH.
Qed.

Lemma row_mean_mono (a b : list bool) :
  Forall2 (fun x y => x = true -> y = true) a b -> row_mean a <= row_mean b.
Proof.
  intro F. unfold row_mean. rewrite (Forall2_length F).
  apply Qdiv_le_mono; [apply of_nat_nonneg|].
  now apply of_nat_le, count_mono.
Qed.

(** C5 (amended).  For a fixed prediction array and fixed masks, and
    thresholds [t1 < t2], the per-sample intersection and the per-sample
    union obtained with [pred > t] are each non-increasing in [t]. *)
Theorem intersection_union_nonincreasing (pred : nd.ndarray Q)
        (gm ign : nd.ndarray bool) (t1 t2 : Q) :
  t1 < t2 ->
  Forall2 Qle (iou_intersection (nd.greater_scalar pred t2) gm ign)
              (iou_intersection (nd.greater_scalar pred t1) gm ign)
  /\ Forall2 Qle (iou_union (nd.greater_scalar pred t2) gm ign)
                 (iou_union (nd.greater_scalar pred t1) gm ign).
Proof.
  intro Ht. revert pred gm ign. apply batch_ind.
  - intros a b c E.
    assert (E1 : forall t, nd.greater_scalar a t = [] \/ b = [] \/ c = []).
    { intro t. destruct E as [-> | E]; auto. }
    rewrite !iou_intersection_nil, !iou_union_nil by apply E1.
    split; constructor.
  - intros x g i a b c [IH1 IH2]. unfold nd.greater_scalar in *. simpl.
    rewrite !iou_intersection_cons, !iou_union_cons.
    split; (constructor; [|assumption]).
    + apply row_mean_mono, threshold_rows; trivial.
      intros [|] [|] [|]; simpl; auto.
    + apply row_mean_mono, threshold_rows; trivial.
      intros [|] [|] [|]; simpl; auto.
Qed.

(** ** The no-positive-pixel guard *)

Lemma all_zero_areas (gm : nd.ndarray bool) :
  np.all_zero (nd.sum_excl0 gm) = true
  <-> Forall (fun g => nd.count g = 0%nat) gm.
Proof.
  unfold np.all_zero, nd.sum_excl0. rewrite forallb_forall, Forall_forall.
  split.
  - intros Hall g Hg. apply of_nat_zero, Hall, in_map_iff. eauto.
  - intros Hall v Hv. apply in_map_iff in Hv as [g [<- Hg]].
    apply of_nat_zero, Hall, Hg.
Qed.

Lemma some_area_positive (gm : nd.ndarray bool) :
  np.all_zero (nd.sum_excl0 gm) = false
  <-> Exists (fun g => (0 < nd.count g)%nat) gm.
Proof.
  rewrite <- not_true_iff_false, all_zero_areas.
  rewrite <- Exists_Forall_neg by (intro g; lia).
  split; apply Exists_impl; intro g; lia.
Qed.

(** The ground-truth mask of a sample without positive value is empty. *)
Lemma gt_mask_count_zero (r : list Q) :
  Forall (fun v => ~ 0 < v) r ->
  nd.count (map (fun v => Qlt_b 0 v) r) = 0%nat.
Proof.
  intro F. apply count_zero, Forall_map.
  apply (Forall_impl _ (P := fun v => ~ 0 < v)); [|exact F].
  intros v Hv. apply not_true_iff_false. now rewrite Qlt_b_true.
Qed.

Lemma guard_fires (gt : nd.ndarray Q) :
  Forall (Forall (fun v => ~ 0 < v)) gt ->
  np.all_zero (nd.sum_excl0 (nd.greater_scalar gt 0)) = true.
Proof.
  intro F. apply all_zero_areas. unfold nd.greater_scalar.
  apply Forall_map.
  apply (Forall_impl _ (P := Forall (fun v => ~ 0 < v))); [|exact F].
  intros r Hr. now apply gt_mask_count_zero.
Qed.

(** ** Samples with a positive pixel are retained *)

Lemma same_shape_length {A B : Type} (a : nd.ndarray A) (b : nd.ndarray B) :
  nd.same_shape a b = true -> length a = length b.
Proof.
  revert b. induction a as [|r a IH]; intros [|s b]; simpl;
    try discriminate; trivial.
  rewrite andb_true_iff. intros [_ S]. now rewrite (IH b S).
Qed.

Lemma or_row_covers (m g : list bool) :
  length m = length g ->
  Forall2 (fun x y => x = true -> y = true) g (nd.zip_with orb m g).
Proof.
  revert g. induction m as [|x m IH]; intros [|y g]; simpl;
    try discriminate; intro L; constructor.
  - intros ->. apply orb_true_r.
  - apply IH. now injection L.
Qed.

Lemma clear_ignored_length (i p : list bool) :
  length (clear_ignored i p) = Nat.min (length i) (length p).
Proof. apply zip_with_length. Qed.

(** Whatever the prediction mask, a sample with a positive ground-truth
    pixel has a positive union. *)
Lemma row_union_pos (p g i : list bool) :
  length p = length g -> length i = length g ->
  (0 < nd.count g)%nat -> 0 < row_union p g i.
Proof.
  intros Lp Li Hg. apply row_mean_pos.
  apply (Nat.lt_le_trans _ _ _ Hg), count_mono, or_row_covers.
  rewrite clear_ignored_length, Lp, Li. apply Nat.min_id.
Qed.

Lemma union_positive_where_gt (pm gm ign : nd.ndarray bool) :
  nd.same_shape pm gm = true -> nd.same_shape ign gm = true ->
  Forall2 (fun g u => (0 < nd.count g)%nat -> 0 < u)
          gm (iou_union pm gm ign).
Proof.
  revert pm ign. induction gm as [|g gm IH]; intros [|p pm] [|i ign];
    try discriminate; intros Sp Si.
  - constructor.
  - apply same_shape_cons in Sp as [Lp Sp], Si as [Li Si].
    rewrite iou_union_cons. constructor; [|now apply IH].
    now apply row_union_pos.
Qed.

Lemma retained_nonempty (gm : nd.ndarray bool) (inter union : list Q) :
  Forall2 (fun g u => (0 < nd.count g)%nat -> 0 < u) gm union ->
  length inter = length union ->
  Exists (fun g => (0 < nd.count g)%nat) gm ->
  filter iou_retained (combine inter union) <> [].
Proof.
  intro F. revert inter.
  induction F as [|g u gm union Hgu _ IH]; intros inter L E.
  - inversion E.
  - destruct inter as [|i inter]; [discriminate|]. injection L as L.
    simpl. unfold iou_retained at 1. simpl.
    destruct (Qlt_b 0 u) eqn:Hu; [discriminate|].
    inversion E as [? ? Hg | ? ? E']; subst.
    + apply Hgu, Qlt_b_true in Hg. congruence.
    + now apply IH.
Qed.

Lemma compute_iou_nonempty (pm gm ign : nd.ndarray bool) :
  nd.same_shape pm gm = true -> nd.same_shape ign gm = true ->
  Exists (fun g => (0 < nd.count g)%nat) gm ->
  _compute_iou pm gm ign false <> [].
Proof.
  intros Sp Si E. rewrite compute_iou_drop. intro Hnil.
  apply map_eq_nil in Hnil. revert Hnil.
  apply (retained_nonempty gm); trivial.
  - now apply union_positive_where_gt.
  - apply iou_arrays_length.
Qed.

Lemma mean_is_num (a : list Q) : a <> [] -> exists q, np.mean a = Num q.
Proof.
  destruct a as [|x a]; [congruence|]. intros _. simpl. eauto.
Qed.

Lemma mean_nan (a : list Q) : np.mean a = NaN <-> a = [].
Proof.
  destruct a; simpl; split; congruence.
Qed.

Section Metrics.

Context `{Backend}.

(** C3.  When no sample of the batch has a ground-truth-positive pixel,
    [update] returns at once for both metrics and the metric object is
    exactly what it was: threshold, score EMA, epoch sum and epoch count
    of the adaptive metric, score EMA, epoch sum and epoch count of the
    ranking metric. *)
Theorem update_without_positive_is_noop (a : AdaptiveIoU.t) (u : AUC.t)
        (pred gt : nd.ndarray Q) :
  Forall (Forall (fun v => ~ 0 < v)) gt ->
  update a pred gt = a /\ update u pred gt = u.
Proof.
  intro F. apply guard_fires in F. simpl.
  unfold AdaptiveIoU.update, AUC.update. now rewrite F.
Qed.

(** The shapes inside [update]: thresholding, the logistic and the label
    test keep the shape of their argument. *)
Lemma candidate_shapes (self : AdaptiveIoU.t) (pred gt : nd.ndarray Q)
      (c : Q) :
  nd.same_shape pred gt = true ->
  nd.same_shape (nd.greater_scalar (AdaptiveIoU.probabilities self pred) c)
                (nd.greater_scalar gt 0) = true
  /\ nd.same_shape (nd.equal_scalar gt (AdaptiveIoU._ignore_label self))
                   (nd.greater_scalar gt 0) = true.
Proof.
  intro S. unfold nd.greater_scalar, nd.equal_scalar. split.
  - rewrite same_shape_map. unfold AdaptiveIoU.probabilities.
    destruct (AdaptiveIoU._from_logits self); [|exact S].
    unfold nd.sigmoid_all. now rewrite same_shape_map_l.
  - rewrite same_shape_map. apply same_shape_refl.
Qed.

(** C10.  Once [update] is past the guard (some sample has a positive
    ground-truth pixel): whatever the prediction mask, each sample with a
    positive ground-truth pixel has a positive union; so for every
    candidate threshold the array returned by [_compute_iou] is not empty
    and its mean is a number. *)
Theorem candidate_means_defined (self : AdaptiveIoU.t)
        (pred gt : nd.ndarray Q) (c : Q) :
  nd.same_shape pred gt = true ->
  np.all_zero (nd.sum_excl0 (nd.greater_scalar gt 0)) = false ->
  let gt_mask := nd.greater_scalar gt 0 in
  let ignore_mask := nd.equal_scalar gt (AdaptiveIoU._ignore_label self) in
  let pred_mask :=
    nd.greater_scalar (AdaptiveIoU.probabilities self pred) c in
  (forall pm : nd.ndarray bool,
      nd.same_shape pm gt_mask = true ->
      Forall2 (fun g u => (0 < nd.count g)%nat -> 0 < u)
              gt_mask (iou_union pm gt_mask ignore_mask))
  /\ _compute_iou pred_mask gt_mask ignore_mask false <> []
  /\ exists q,
      AdaptiveIoU.candidate_score (AdaptiveIoU.probabilities self pred)
                                  gt_mask ignore_mask c = Num q.
Proof.
  intros S G gt_mask ignore_mask pred_mask.
  destruct (candidate_shapes self pred gt c S) as [Sp Si].
  apply some_area_positive in G.
  assert (N : _compute_iou pred_mask gt_mask ignore_mask false <> [])
    by now apply compute_iou_nonempty.
  split; [intros pm Spm; now apply union_positive_where_gt|].
  split; [exact N|].
  now apply mean_is_num.
Qed.

(** *** The ranking metric *)

Lemma auc_loop_acc (pred : nd.ndarray Q) (gm : nd.ndarray bool)
      (acc : list Q) :
  auc_loop pred gm acc = acc ++ auc_loop pred gm [].
Proof.
  revert gm acc. induction pred as [|p pred IH]; intros [|g gm] acc; simpl;
    try now rewrite app_nil_r.
  destruct (Nat.eqb (nd.count g) 0); [apply IH|].
  rewrite IH, (IH gm [_]). now rewrite app_assoc.
Qed.

(** The loop retains nothing only if no sample has a positive pixel. *)
Lemma auc_loop_empty (pred : nd.ndarray Q) (gm : nd.ndarray bool) :
  length pred = length gm ->
  auc_loop pred gm [] = [] ->
  Forall (fun g => nd.count g = 0%nat) gm.
Proof.
  revert gm. induction pred as [|p pred IH]; intros [|g gm] L E;
    try discriminate; [constructor|].
  injection L as L. simpl in E.
  destruct (Nat.eqb (nd.count g) 0) eqn:C.
  - constructor; [now apply Nat.eqb_eq | now apply IH].
  - rewrite auc_loop_acc in E. discriminate.
Qed.

Lemma where_length {A : Type} (cond : nd.ndarray bool) (x y : nd.ndarray A) :
  length cond = length y -> length x = length y ->
  length (nd.where_ cond x y) = length y.
Proof.
  intros Lc Lx. unfold nd.where_. rewrite !zip_with_length, Lc, Lx.
  now rewrite !Nat.min_id.
Qed.

Lemma compute_auc_empty (pred gt : nd.ndarray Q) (label : Q) :
  length pred = length gt ->
  _compute_auc pred (nd.greater_scalar gt 0) (nd.equal_scalar gt label) = [] ->
  np.all_zero (nd.sum_excl0 (nd.greater_scalar gt 0)) = true.
Proof.
  intros L E. apply all_zero_areas. unfold _compute_auc in E.
  apply auc_loop_empty in E; [exact E|].
  unfold nd.greater_scalar, nd.equal_scalar, nd.zeros_like.
  rewrite where_length; now rewrite !length_map.
Qed.

Lemma auc_probabilities_length (u : AUC.t) (pred : nd.ndarray Q) :
  length (AUC.probabilities u pred) = length pred.
Proof.
  unfold AUC.probabilities, nd.sigmoid_all.
  destruct (AUC._from_logits u); [apply length_map | reflexivity].
Qed.

(** C8.  When the ranking-quality computation retains no sample, the
    ranking metric's [update] is a no-op (the guard on the positive-pixel
    counts has already returned); and on every batch the score EMA and the
    epoch sum stay numbers, so the mean of an empty sequence is never
    stored. *)
Theorem auc_update_without_samples_is_noop (u : AUC.t)
        (pred gt : nd.ndarray Q) :
  nd.same_shape pred gt = true ->
  (_compute_auc (AUC.probabilities u pred) (nd.greater_scalar gt 0)
                (nd.equal_scalar gt (AUC._ignore_label u)) = [] ->
   update u pred gt = u)
  /\ (is_num (AUC._ema_auc u) = true ->
      is_num (AUC._ema_auc (update u pred gt)) = true)
  /\ (is_num (AUC._epoch_auc_sum u) = true ->
      is_num (AUC._epoch_auc_sum (update u pred gt)) = true).
Proof.
  intro S. apply same_shape_length in S.
  pose proof (compute_auc_empty (AUC.probabilities u pred) gt
                                (AUC._ignore_label u)) as E.
  rewrite auc_probabilities_length in E. specialize (E S).
  simpl. unfold AUC.update.
  destruct (np.all_zero (nd.sum_excl0 (nd.greater_scalar gt 0))) eqn:G.
  - auto.
  - split; [intro N; apply E in N; discriminate|].
    destruct (np.mean _) as [q|] eqn:M.
    + simpl. split; intro I.
      * destruct (AUC._ema_auc u); [reflexivity | discriminate].
      * destruct (AUC._epoch_auc_sum u); [reflexivity | discriminate].
    + apply mean_nan, E in M. discriminate.
Qed.

(** *** The threshold search *)

(** The loop of lines 55-59 unrolled: the decision tree over the three
    scores. *)
Lemma threshold_search_eq (score : Q -> fval) (t step : Q) :
  AdaptiveIoU.threshold_search score t step
  = if fgt (score (t - step)) (score t)
    then if fgt (score (t + step)) (score (t - step))
         then (score (t + step), t + step)
         else (score (t - step), t - step)
    else if fgt (score (t + step)) (score t)
         then (score (t + step), t + step)
         else (score t, t).
Proof.
  unfold AdaptiveIoU.threshold_search. simpl.
  destruct (fgt (score (t - step)) (score t)); simpl;
    now destruct (fgt (score (t + step)) _).
Qed.

(** The search reads the score function at the three candidates only. *)
Lemma threshold_search_ext (score score' : Q -> fval) (t step : Q) :
  score' t = score t ->
  score' (t - step) = score (t - step) ->
  score' (t + step) = score (t + step) ->
  AdaptiveIoU.threshold_search score' t step
  = AdaptiveIoU.threshold_search score t step.
Proof.
  intros E0 E1 E2. rewrite !threshold_search_eq. now rewrite E0, E1, E2.
Qed.

(** The selected score is the score of the selected threshold, which is
    one of the three candidates, and no candidate beats it. *)
Lemma threshold_search_best (score : Q -> fval) (t step : Q) :
  let r := AdaptiveIoU.threshold_search score t step in
  fst r = score (snd r)
  /\ (snd r = t \/ snd r = t - step \/ snd r = t + step)
  /\ fgt (score t) (fst r) = false
  /\ fgt (score (t - step)) (fst r) = false
  /\ fgt (score (t + step)) (fst r) = false.
Proof.
  cbv zeta. rewrite threshold_search_eq.
  destruct (fgt (score (t - step)) (score t)) eqn:E1.
  - destruct (fgt (score (t + step)) (score (t - step))) eqn:E2; simpl.
    + repeat split; auto using fgt_irrefl, fgt_asym.
      apply fgt_asym, (fgt_trans _ _ _ E2 E1).
    + repeat split; auto using fgt_irrefl, fgt_asym.
  - destruct (fgt (score (t + step)) (score t)) eqn:E2; simpl.
    + repeat split; auto using fgt_irrefl, fgt_asym.
      apply (fgt_below _ _ _ E1 E2).
    + repeat split; auto using fgt_irrefl.
Qed.

(** Ties keep the current threshold; a perturbed threshold is selected
    only with a strictly greater score. *)
Lemma threshold_search_ties (score : Q -> fval) (t step : Q) :
  let r := AdaptiveIoU.threshold_search score t step in
  (fgt (score (t - step)) (score t) = false ->
   fgt (score (t + step)) (score t) = false -> r = (score t, t))
  /\ (r <> (score t, t) -> fgt (fst r) (score t) = true).
Proof.
  cbv zeta. rewrite threshold_search_eq.
  destruct (fgt (score (t - step)) (score t)) eqn:E1.
  - split; [discriminate|]. intros _.
    destruct (fgt (score (t + step)) (score (t - step))) eqn:E2; simpl;
      eauto using fgt_trans.
  - destruct (fgt (score (t + step)) (score t)) eqn:E2; simpl.
    + split; [discriminate | auto].
    + split; [reflexivity | congruence].
Qed.

(** C1.  Past the guard, [update] scores exactly the three candidates
    threshold, threshold - step and threshold + step (the score of a
    candidate [c] being the mean of [_compute_iou(pred > c, ...)], both
    perturbed candidates computed from the threshold at entry), and the
    pair (best threshold, best score) it blends into its state is the one
    selected by strict comparisons in that order: it is the current
    threshold unless a perturbed candidate scores strictly more, no
    candidate beats the selected score, and ties keep the current
    threshold. *)
Theorem update_threshold_search (self : AdaptiveIoU.t)
        (pred gt : nd.ndarray Q) :
  np.all_zero (nd.sum_excl0 (nd.greater_scalar gt 0)) = false ->
  let t := AdaptiveIoU._iou_thresh self in
  let step := AdaptiveIoU._thresh_step self in
  let score c :=
    np.mean (_compute_iou
               (nd.greater_scalar (AdaptiveIoU.probabilities self pred) c)
               (nd.greater_scalar gt 0)
               (nd.equal_scalar gt (AdaptiveIoU._ignore_label self))
               false) in
  exists best_score best_thresh,
    update self pred gt
    = AdaptiveIoU.mk
        (AdaptiveIoU._ignore_label self) (AdaptiveIoU._from_logits self)
        (AdaptiveIoU._thresh_beta self * t
         + (1 - AdaptiveIoU._thresh_beta self) * best_thresh)
        step (AdaptiveIoU._thresh_beta self) (AdaptiveIoU._iou_beta self)
        (ema (AdaptiveIoU._iou_beta self) (AdaptiveIoU._ema_iou self)
             best_score)
        (fadd (AdaptiveIoU._epoch_iou_sum self) best_score)
        (AdaptiveIoU._epoch_batch_count self + 1)
    /\ (best_score, best_thresh)
       = (if fgt (score (t - step)) (score t)
          then if fgt (score (t + step)) (score (t - step))
               then (score (t + step), t + step)
               else (score (t - step), t - step)
          else if fgt (score (t + step)) (score t)
               then (score (t + step), t + step)
               else (score t, t))
    /\ (forall score' : Q -> fval,
           score' t = score t ->
           score' (t - step) = score (t - step) ->
           score' (t + step) = score (t + step) ->
           AdaptiveIoU.threshold_search score' t step
           = (best_score, best_thresh))
    /\ best_score = score best_thresh
    /\ (best_thresh = t \/ best_thresh = t - step \/ best_thresh = t + step)
    /\ fgt (score t) best_score = false
    /\ fgt (score (t - step)) best_score = false
    /\ fgt (score (t + step)) best_score = false
    /\ (fgt (score (t - step)) (score t) = false ->
        fgt (score (t + step)) (score t) = false ->
        (best_score, best_thresh) = (score t, t))
    /\ ((best_score, best_thresh) <> (score t, t) ->
        fgt best_score (score t) = true).
Proof.
  intros G t step score.
  pose proof (threshold_search_eq score t step) as Heq.
  pose proof (threshold_search_best score t step) as Hbest.
  pose proof (threshold_search_ties score t step) as Hties.
  pose proof (fun s' => threshold_search_ext score s' t step) as Hext.
  destruct (AdaptiveIoU.threshold_search score t step) as [m b] eqn:R.
  exists m, b. cbv zeta in Hbest, Hties. simpl in Hbest, Hties.
  split.
  - simpl. unfold AdaptiveIoU.update. rewrite G.
    fold t step. unfold AdaptiveIoU.candidate_score. fold score.
    now rewrite R.
  - split; [exact Heq|]. split; [exact Hext|]. tauto.
Qed.

(** *** The search outside the unit interval *)






End Metrics.

(** * Evaluation on concrete batches *)

Example compute_iou_retained_sample :
  _compute_iou [[true; true; false; false]; [false; false; false; false]]
               [[true; false; false; false]; [false; false; false; false]]
               [[false; false; false; false]; [false; false; false; false]]
               false
  = [(1 # 4) / (2 # 4)].
Proof. reflexivity. Qed.

Example compute_iou_sentinel :
  _compute_iou [[true; true; false; false]; [false; false; false; false]]
               [[true; false; false; false]; [false; false; false; false]]
               [[false; false; false; false]; [false; false; false; false]]
               true
  = [(1 # 4) / (2 # 4); -1].
Proof. reflexivity. Qed.

Example scenario_A_search :
  AdaptiveIoU.threshold_search
    (AdaptiveIoU.candidate_score scenario_pred
       (nd.greater_scalar scenario_gt 0) (nd.equal_scalar scenario_gt (-1)))
    (4 # 10) (25 # 1000)
  = (Num (((4 # 16) / (4 # 16)) / 1), 4 # 10).
Proof. vm_compute. reflexivity. Qed.

(** Scenario B of the specification: a ground truth made of the ignore
    label only leaves the metric as it was. *)
Example scenario_B_ignored_batch :
  @AdaptiveIoU.update rational_backend (AdaptiveIoU.default false)
                      [[9 # 10; 1 # 10]] [[-1; -1]]
  = AdaptiveIoU.default false.
Proof. reflexivity. Qed.

Lemma update_threshold_search_witness :
  np.all_zero (nd.sum_excl0 (nd.greater_scalar scenario_gt 0)) = false
  /\ exists best_score best_thresh,
      AdaptiveIoU._iou_thresh
        (@update _ (@AdaptiveIoU_metric rational_backend)
                 (AdaptiveIoU.default false) scenario_pred scenario_gt)
      = (99 # 100) * (4 # 10) + (1 - (99 # 100)) * best_thresh
      /\ best_score = Num (((4 # 16) / (4 # 16)) / 1)
      /\ best_thresh = 4 # 10.
Proof.
  split; [reflexivity|].
  destruct (@update_threshold_search rational_backend
              (AdaptiveIoU.default false) scenario_pred scenario_gt eq_refl)
    as (m & b & E & R & _).
  exists m, b. rewrite E. split; [reflexivity|].
  vm_compute in R. now inversion R.
Defined.

Lemma update_without_positive_is_noop_witness :
  Forall (Forall (fun v => ~ 0 < v)) [[0; -1]; [-1; 0]]
  /\ @update _ (@AdaptiveIoU_metric rational_backend)
             (AdaptiveIoU.default true) [[3; -2]; [1; 0]] [[0; -1]; [-1; 0]]
     = AdaptiveIoU.default true
  /\ @update _ (@AdaptiveIoU_metric rational_backend)
             (AdaptiveIoU.default false)
             [[3 # 10; 2 # 10]; [1 # 10; 0]] [[0; -1]; [-1; 0]]
     = AdaptiveIoU.default false
  /\ @update _ (@AUC_metric rational_backend)
             (AUC.default true) [[3; -2]; [1; 0]] [[0; -1]; [-1; 0]]
     = AUC.default true.
Proof.
  assert (F : Forall (Forall (fun v => ~ 0 < v)) [[0; -1]; [-1; 0]])
    by (repeat constructor; qconst).
  split; [exact F|].
  split; [|split].
  - exact (proj1 (@update_without_positive_is_noop rational_backend
                    (AdaptiveIoU.default true) (AUC.default true)
                    [[3; -2]; [1; 0]] _ F)).
  - exact (proj1 (@update_without_positive_is_noop rational_backend
                    (AdaptiveIoU.default false) (AUC.default true)
                    [[3 # 10; 2 # 10]; [1 # 10; 0]] _ F)).
  - exact (proj2 (@update_without_positive_is_noop rational_backend
                    (AdaptiveIoU.default true) (AUC.default true)
                    [[3; -2]; [1; 0]] _ F)).
Defined.

(** C4, as stated, fails: a position that is both ignored and positive in
    the ground truth still counts for the union of its sample (only the
    prediction mask is cleared), so the sample is retained with overlap 0
    instead of being dropped. *)
Lemma ignored_positive_position_counts_for_union :
  let pm := [[false]] in
  let gm := [[true]] in
  let ign := [[true]] in
  ~ (nd.at_ ign 0 0 = true ->
     nd.at_ (iou_union_map pm gm ign) 0 0 = false
     /\ nd.at_ (iou_intersection_map pm gm ign) 0 0 = false).
Proof.
  simpl. intro C. destruct (C eq_refl) as [U _]. discriminate U.
Qed.

Example ignored_positive_sample_retained :
  iou_union [[false]] [[true]] [[true]] = [1 / 1]
  /\ _compute_iou [[false]] [[true]] [[true]] false = [0 / 1 / (1 / 1)].
Proof. split; reflexivity. Qed.

Lemma ignored_position_contribution_witness :
  nd.same_shape [[true; true]] [[true; false]] = true
  /\ nd.same_shape [[false; true]] [[true; false]] = true
  /\ nd.at_ [[false; true]] 0 1 = true
  /\ nd.at_ (iou_intersection_map [[true; true]] [[true; false]]
                                  [[false; true]]) 0 1 = false
  /\ nd.at_ (iou_union_map [[true; true]] [[true; false]]
                           [[false; true]]) 0 1 = false.
Proof.
  do 3 (split; [reflexivity|]).
  destruct (ignored_position_contribution
              [[true; true]] [[true; false]] [[false; true]] 0 1
              eq_refl eq_refl eq_refl) as (I & _ & U).
  split; [exact I | exact (U eq_refl)].
Defined.

(** C5, as stated, fails: raising the threshold from 0.4 to 0.6 removes a
    false positive and the overlap rises from 1/2 to 1. *)
Lemma overlap_not_monotone_in_threshold :
  let pred := [[9 # 10; 5 # 10]] in
  let gm := [[true; false]] in
  let ign := [[false; false]] in
  ~ (4 # 10 < 6 # 10 ->
     Forall2 Qle (_compute_iou (nd.greater_scalar pred (6 # 10)) gm ign false)
                 (_compute_iou (nd.greater_scalar pred (4 # 10)) gm ign false)).
Proof.
  cbv zeta. intro C. assert (L : 4 # 10 < 6 # 10) by qconst.
  specialize (C L). vm_compute in C.
  inversion C as [|? ? ? ? Hle _]; subst. apply Hle. reflexivity.
Qed.

Example overlap_rises_with_threshold :
  AdaptiveIoU.candidate_score [[9 # 10; 5 # 10]] [[true; false]]
                              [[false; false]] (4 # 10)
  = Num ((1 # 2) / (2 # 2) / 1)
  /\ AdaptiveIoU.candidate_score [[9 # 10; 5 # 10]] [[true; false]]
                                 [[false; false]] (6 # 10)
     = Num ((1 # 2) / (1 # 2) / 1).
Proof. split; vm_compute; reflexivity. Qed.

Lemma intersection_union_nonincreasing_witness :
  4 # 10 < 6 # 10
  /\ Forall2 Qle
       (iou_union (nd.greater_scalar [[9 # 10; 5 # 10]] (6 # 10))
                  [[true; false]] [[false; false]])
       (iou_union (nd.greater_scalar [[9 # 10; 5 # 10]] (4 # 10))
                  [[true; false]] [[false; false]]).
Proof.
  assert (L : 4 # 10 < 6 # 10) by qconst.
  split; [exact L|].
  exact (proj2 (intersection_union_nonincreasing
                  [[9 # 10; 5 # 10]] [[true; false]] [[false; false]]
                  (4 # 10) (6 # 10) L)).
Defined.

Lemma auc_update_without_samples_is_noop_witness :
  nd.same_shape [[1 # 2; 1 # 3]; [1 # 4; 1 # 5]] [[0; -1]; [0; 0]] = true
  /\ @_compute_auc rational_backend
       (@AUC.probabilities rational_backend (AUC.default false)
                           [[1 # 2; 1 # 3]; [1 # 4; 1 # 5]])
       (nd.greater_scalar [[0; -1]; [0; 0]] 0)
       (nd.equal_scalar [[0; -1]; [0; 0]] (-1)) = []
  /\ @update _ (@AUC_metric rational_backend) (AUC.default false)
             [[1 # 2; 1 # 3]; [1 # 4; 1 # 5]] [[0; -1]; [0; 0]]
     = AUC.default false.
Proof.
  do 2 (split; [reflexivity|]).
  exact (proj1 (@auc_update_without_samples_is_noop rational_backend
                  (AUC.default false) [[1 # 2; 1 # 3]; [1 # 4; 1 # 5]]
                  [[0; -1]; [0; 0]] eq_refl) eq_refl).
Defined.

Lemma candidate_means_defined_witness :
  nd.same_shape scenario_pred scenario_gt = true
  /\ np.all_zero (nd.sum_excl0 (nd.greater_scalar scenario_gt 0)) = false
  /\ _compute_iou
       (nd.greater_scalar
          (@AdaptiveIoU.probabilities rational_backend
             (AdaptiveIoU.default false) scenario_pred) (425 # 1000))
       (nd.greater_scalar scenario_gt 0)
       (nd.equal_scalar scenario_gt (-1)) false <> [].
Proof.
  do 2 (split; [reflexivity|]).
  exact (proj1 (proj2 (@candidate_means_defined rational_backend
                         (AdaptiveIoU.default false) scenario_pred
                         scenario_gt (425 # 1000) eq_refl eq_refl))).
Defined.


(** * Further properties of the module *)

(** ** [_compute_iou]: the two modes, sizes, extreme values *)

Lemma iou_values_bounds (inter union : list Q) :
  Forall2 (fun i u => 0 <= i /\ i <= u) inter union ->
  Forall (fun v => 0 <= v <= 1)
         (map iou_ratio (filter iou_retained (combine inter union))).
Proof.
  induction 1 as [|i u inter union [Hi Hiu] _ IH]; simpl; [constructor|].
  assert (R : iou_retained (i, u) = Qlt_b 0 u) by reflexivity.
  rewrite R. destruct (Qlt_b 0 u) eqn:E; [|exact IH].
  constructor; [|exact IH].
  apply ratio_in_unit; trivial. now apply Qlt_b_true.
Qed.

Lemma compute_iou_values_in_unit (pm gm ign : nd.ndarray bool) :
  Forall (fun v => 0 <= v <= 1) (_compute_iou pm gm ign false).
Proof.
  rewrite compute_iou_drop. apply iou_values_bounds, inter_union_bounds.
Qed.

(** A retained ratio is never the sentinel. *)
Lemma ratio_not_sentinel (i u : Q) :
  0 <= i -> i <= u -> 0 < u -> Qeq_bool (iou_ratio (i, u)) (-1) = false.
Proof.
  intros Hi Hiu Hu. destruct (ratio_in_unit i u Hi Hiu Hu) as [Hr _].
  apply not_true_iff_false. rewrite Qeq_bool_iff.
  unfold iou_ratio; simpl. intro Q1. rewrite Q1 in Hr.
  revert Hr. unfold Qle; simpl. lia.
Qed.

(** X1.  The default result of [_compute_iou] is its keep-ignore result
    with the sentinel entries removed: the two modes agree on the retained
    samples, and no retained value is mistaken for the sentinel. *)
Theorem compute_iou_modes_agree (pm gm ign : nd.ndarray bool) :
  _compute_iou pm gm ign false
  = filter (fun v => negb (Qeq_bool v (-1))) (_compute_iou pm gm ign true).
Proof.
  rewrite compute_iou_drop, compute_iou_keep.
  pose proof (inter_union_bounds pm gm ign) as B.
  induction B as [|i u inter union [Hi Hiu] _ IH]; simpl; [reflexivity|].
  assert (R : iou_retained (i, u) = Qlt_b 0 u) by reflexivity.
  rewrite R. destruct (Qlt_b 0 u) eqn:E; simpl; [|exact IH].
  apply Qlt_b_true in E.
  rewrite (ratio_not_sentinel i u Hi Hiu E). simpl. now rewrite IH.
Qed.

Lemma iou_union_length (pm gm ign : nd.ndarray bool) :
  nd.same_shape pm gm = true -> nd.same_shape ign gm = true ->
  length (iou_union pm gm ign) = length gm.
Proof.
  intros Sp Si.
  pose proof (Forall2_length (union_positive_where_gt pm gm ign Sp Si)).
  congruence.
Qed.

(** X2.  Sizes: for arrays of one shape, [_compute_iou] returns at most
    one value per sample of the batch, and in keep-ignore mode exactly one
    entry per sample. *)
Theorem compute_iou_sizes (pm gm ign : nd.ndarray bool) :
  nd.same_shape pm gm = true -> nd.same_shape ign gm = true ->
  (length (_compute_iou pm gm ign false) <= length gm)%nat
  /\ length (_compute_iou pm gm ign true) = length gm.
Proof.
  intros Sp Si.
  pose proof (iou_union_length pm gm ign Sp Si) as Lu.
  pose proof (iou_arrays_length pm gm ign) as Li.
  split.
  - rewrite compute_iou_drop, length_map.
    etransitivity; [apply filter_length_le|].
    rewrite length_combine, Li, Nat.min_id. lia.
  - rewrite compute_iou_keep, length_map, length_combine, Li, Nat.min_id.
    exact Lu.
Qed.

(** ** Ignored positions never reach the result *)

Lemma where_agree_row {A : Type} (z : A) (i : list bool) (r s : list A) :
  Forall3 (fun (c : bool) (a b : A) => c = false -> a = b) i r s ->
  nd.zip_with (fun (c : bool) (p : A * A) => if c then fst p else snd p)
              i (combine (map (fun _ => z) r) r)
  = nd.zip_with (fun (c : bool) (p : A * A) => if c then fst p else snd p)
                i (combine (map (fun _ => z) s) s).
Proof.
  induction 1 as [|c a b i r s Hc _ IH]; simpl; [reflexivity|].
  rewrite IH. destruct c; simpl; [reflexivity|].
  now rewrite (Hc eq_refl).
Qed.

(** Zeroing the ignored positions erases every difference between two
    arrays that agree elsewhere. *)
Lemma where_agree {A : Type} (z : A) (ign : nd.ndarray bool)
      (x y : nd.ndarray A) :
  agree_off ign x y ->
  nd.where_ ign (nd.zeros_like z x) x = nd.where_ ign (nd.zeros_like z y) y.
Proof.
  unfold agree_off, nd.where_, nd.zeros_like.
  induction 1 as [|i r s ign x y Hrow _ IH]; simpl; [reflexivity|].
  now rewrite IH, (where_agree_row z i r s Hrow).
Qed.

Lemma agree_off_map {A B : Type} (f : A -> B) (ign : nd.ndarray bool)
      (x y : nd.ndarray A) :
  agree_off ign x y -> agree_off ign (map (map f) x) (map (map f) y).
Proof.
  unfold agree_off.
  induction 1 as [|i r s ign x y Hrow _ IH]; simpl; constructor; trivial.
  clear -Hrow. induction Hrow as [|c a b i r s Hc _ IH]; simpl;
    constructor; trivial.
  intro E. now rewrite (Hc E).
Qed.

Lemma compute_iou_agree (pm pm' gm ign : nd.ndarray bool) (keep : bool) :
  agree_off ign pm pm' ->
  _compute_iou pm gm ign keep = _compute_iou pm' gm ign keep.
Proof.
  intro Ag. apply (where_agree false) in Ag.
  unfold _compute_iou, iou_union, iou_intersection, iou_union_map,
    iou_intersection_map, iou_pred_mask.
  now rewrite Ag.
Qed.

(** X3.  [_compute_iou] does not look at the prediction mask on ignored
    positions: two prediction masks that agree on every position the
    ignore mask leaves in give the same result, in both modes. *)
Theorem compute_iou_ignores_masked_predictions
        (pm pm' gm ign : nd.ndarray bool) (keep_ignore : bool) :
  agree_off ign pm pm' ->
  _compute_iou pm gm ign keep_ignore = _compute_iou pm' gm ign keep_ignore.
Proof. apply compute_iou_agree. Qed.

Lemma compute_auc_agree `{Backend} (pred pred' : nd.ndarray Q)
      (gm ign : nd.ndarray bool) :
  agree_off ign pred pred' ->
  _compute_auc pred gm ign = _compute_auc pred' gm ign.
Proof.
  intro Ag. apply (where_agree 0) in Ag. unfold _compute_auc.
  now rewrite Ag.
Qed.

(** ** [_compute_iou]: perfect and disjoint predictions *)

Lemma clear_ignored_disjoint (g i : list bool) :
  Forall2 (fun x y => x && y = false) g i -> clear_ignored i g = g.
Proof.
  unfold clear_ignored.
  induction 1 as [|x c g i Hxc _ IH]; simpl; [reflexivity|].
  rewrite IH. f_equal. destruct x, c; try reflexivity. discriminate Hxc.
Qed.

Lemma zip_with_diag (op : bool -> bool -> bool) (g : list bool) :
  (forall b, op b b = b) -> nd.zip_with op g g = g.
Proof.
  intro Hop. induction g as [|b g IH]; simpl; [reflexivity|].
  now rewrite IH, Hop.
Qed.

Lemma iou_self (gm ign : nd.ndarray bool) :
  disjoint_masks gm ign ->
  iou_intersection gm gm ign = iou_union gm gm ign.
Proof.
  induction 1 as [|g i gm ign Hgi _ IH]; [reflexivity|].
  rewrite iou_intersection_cons, iou_union_cons, IH. f_equal.
  unfold row_intersection, row_union.
  rewrite (clear_ignored_disjoint g i Hgi).
  now rewrite (zip_with_diag andb), (zip_with_diag orb)
    by (intros []; reflexivity).
Qed.

Lemma ratio_diag (l : list Q) :
  Forall (fun v => v == 1)
         (map iou_ratio (filter iou_retained (combine l l))).
Proof.
  induction l as [|u l IH]; simpl; [constructor|].
  assert (R : iou_retained (u, u) = Qlt_b 0 u) by reflexivity.
  rewrite R. destruct (Qlt_b 0 u) eqn:E; [|exact IH].
  constructor; [|exact IH].
  apply Qlt_b_true in E. unfold iou_ratio, Qdiv. simpl.
  apply Qmult_inv_r. intro Z. rewrite Z in E. now apply Qlt_irrefl in E.
Qed.

(** X4.  A prediction that equals the ground truth on every position that
    is not ignored scores 1 on every retained sample, provided no position
    is both positive and ignored. *)
Theorem compute_iou_perfect_prediction (pm gm ign : nd.ndarray bool) :
  agree_off ign pm gm -> disjoint_masks gm ign ->
  Forall (fun v => v == 1) (_compute_iou pm gm ign false).
Proof.
  intros Ag D. rewrite (compute_iou_agree pm gm gm ign false Ag).
  rewrite compute_iou_drop, (iou_self gm ign D). apply ratio_diag.
Qed.

Lemma and_row_disjoint (p g i : list bool) :
  Forall2 (fun x y => x && y = false) p g ->
  nd.count (nd.zip_with andb (clear_ignored i p) g) = 0%nat.
Proof.
  intro D. apply count_zero. unfold clear_ignored. revert i.
  induction D as [|x y p g Hxy _ IH]; intros [|c i]; simpl; constructor.
  - destruct c, x, y; try reflexivity; discriminate Hxy.
  - apply IH.
Qed.

Lemma iou_intersection_disjoint (pm gm ign : nd.ndarray bool) :
  disjoint_masks pm gm ->
  Forall (fun v => v == 0) (iou_intersection pm gm ign).
Proof.
  intro D. revert ign.
  induction D as [|p g pm gm Hpg _ IH]; intros [|i ign];
    try (rewrite iou_intersection_nil by auto; constructor).
  rewrite iou_intersection_cons. constructor; [|apply IH].
  unfold row_intersection, row_mean.
  rewrite (and_row_disjoint p g i Hpg). unfold Qdiv. apply Qmult_0_l.
Qed.

(** X5.  A prediction mask with no position in common with the ground
    truth scores 0 on every retained sample. *)
Theorem compute_iou_disjoint_prediction (pm gm ign : nd.ndarray bool) :
  disjoint_masks pm gm ->
  Forall (fun v => v == 0) (_compute_iou pm gm ign false).
Proof.
  intro D. rewrite compute_iou_drop.
  pose proof (iou_intersection_disjoint pm gm ign D) as Z.
  pose proof (iou_arrays_length pm gm ign) as L.
  revert Z L. generalize (iou_intersection pm gm ign) as inter.
  generalize (iou_union pm gm ign) as union.
  intros union inter Z. revert union.
  induction Z as [|i inter Hi _ IH]; intros [|u union] L;
    simpl in *; try discriminate; [constructor|].
  injection L as L.
  assert (R : iou_retained (i, u) = Qlt_b 0 u) by reflexivity.
  rewrite R. destruct (Qlt_b 0 u); [|now apply IH].
  constructor; [|now apply IH].
  unfold iou_ratio, Qdiv. simpl. rewrite Hi. apply Qmult_0_l.
Qed.

Section MetricsAtLarge.

Context `{Backend}.

(** ** [_compute_auc]: which samples are scored *)

Lemma auc_loop_filter (pred : nd.ndarray Q) (gm : nd.ndarray bool) :
  auc_loop pred gm []
  = map (fun pg => pr_auc (snd pg) (fst pg))
        (filter (fun pg => negb (Nat.eqb (nd.count (snd pg)) 0))
                (combine pred gm)).
Proof.
  revert gm. induction pred as [|p pred IH]; intros [|g gm]; simpl; trivial.
  destruct (Nat.eqb (nd.count g) 0); simpl; [apply IH|].
  now rewrite auc_loop_acc, IH.
Qed.

Lemma filter_combine_snd {A B : Type} (f : B -> bool) (a : list A)
      (b : list B) :
  length a = length b ->
  length (filter (fun ab => f (snd ab)) (combine a b)) = length (filter f b).
Proof.
  revert b. induction a as [|x a IH]; intros [|y b] L; simpl in *;
    try discriminate; trivial.
  injection L as L. destruct (f y); simpl; now rewrite IH.
Qed.

(** X6.  [_compute_auc] scores exactly the samples that have a positive
    ground-truth pixel, in batch order, each on its predictions with the
    ignored positions zeroed; the samples without positive pixel are left
    out (not zero-filled), so for a batch of one size the result has as
    many entries as there are samples with a positive pixel. *)
Theorem compute_auc_scores_positive_samples (pred : nd.ndarray Q)
        (gm ign : nd.ndarray bool) :
  length pred = length gm -> length ign = length gm ->
  _compute_auc pred gm ign
  = map (fun pg => pr_auc (snd pg) (fst pg))
        (filter (fun pg => negb (Nat.eqb (nd.count (snd pg)) 0))
                (combine (nd.where_ ign (nd.zeros_like 0 pred) pred) gm))
  /\ length (_compute_auc pred gm ign)
     = length (filter (fun g => negb (Nat.eqb (nd.count g) 0)) gm).
Proof.
  intros Lp Li. unfold _compute_auc. rewrite auc_loop_filter.
  split; [reflexivity|].
  rewrite length_map.
  apply (filter_combine_snd (fun g => negb (Nat.eqb (nd.count g) 0))).
  rewrite where_length; unfold nd.zeros_like; rewrite ?length_map; congruence.
Qed.

(** X7.  [_compute_auc] does not look at the predictions on ignored
    positions: two prediction arrays that agree on every position the
    ignore mask leaves in give the same result. *)
Theorem compute_auc_ignores_masked_predictions (pred pred' : nd.ndarray Q)
        (gm ign : nd.ndarray bool) :
  agree_off ign pred pred' ->
  _compute_auc pred gm ign = _compute_auc pred' gm ign.
Proof. apply compute_auc_agree. Qed.

(** ** [update]: predictions under the ignore label *)

Lemma iou_probabilities_agree (self : AdaptiveIoU.t)
      (ign : nd.ndarray bool) (pred pred' : nd.ndarray Q) :
  agree_off ign pred pred' ->
  agree_off ign (AdaptiveIoU.probabilities self pred)
            (AdaptiveIoU.probabilities self pred').
Proof.
  intro Ag. unfold AdaptiveIoU.probabilities, nd.sigmoid_all.
  destruct (AdaptiveIoU._from_logits self); [now apply agree_off_map | exact Ag].
Qed.

Lemma candidate_score_agree (pred pred' : nd.ndarray Q)
      (gm ign : nd.ndarray bool) (c : Q) :
  agree_off ign pred pred' ->
  AdaptiveIoU.candidate_score pred gm ign c
  = AdaptiveIoU.candidate_score pred' gm ign c.
Proof.
  intro Ag. unfold AdaptiveIoU.candidate_score, nd.greater_scalar.
  now rewrite (compute_iou_agree _ _ gm ign false
                 (agree_off_map (fun v => Qlt_b c v) ign pred pred' Ag)).
Qed.

(** X8.  The predictions at the positions that carry the ignore label
    never influence the adaptive metric: two prediction batches that agree
    on every other position lead [update] to the same state (threshold,
    score EMA and epoch statistics). *)
Theorem iou_update_ignores_masked_predictions (self : AdaptiveIoU.t)
        (pred pred' gt : nd.ndarray Q) :
  agree_off (nd.equal_scalar gt (AdaptiveIoU._ignore_label self)) pred pred' ->
  update self pred gt = update self pred' gt.
Proof.
  intro Ag. apply (iou_probabilities_agree self) in Ag.
  simpl. unfold AdaptiveIoU.update.
  destruct (np.all_zero _); [reflexivity|].
  rewrite (threshold_search_ext
             (AdaptiveIoU.candidate_score
                (AdaptiveIoU.probabilities self pred')
                (nd.greater_scalar gt 0)
                (nd.equal_scalar gt (AdaptiveIoU._ignore_label self)))
             (AdaptiveIoU.candidate_score
                (AdaptiveIoU.probabilities self pred)
                (nd.greater_scalar gt 0)
                (nd.equal_scalar gt (AdaptiveIoU._ignore_label self))));
    trivial; now apply candidate_score_agree.
Qed.

(** X9.  The same for the ranking metric. *)
Theorem auc_update_ignores_masked_predictions (self : AUC.t)
        (pred pred' gt : nd.ndarray Q) :
  agree_off (nd.equal_scalar gt (AUC._ignore_label self)) pred pred' ->
  update self pred gt = update self pred' gt.
Proof.
  intro Ag. simpl. unfold AUC.update.
  destruct (np.all_zero _); [reflexivity|].
  assert (Ag' : agree_off (nd.equal_scalar gt (AUC._ignore_label self))
                          (AUC.probabilities self pred)
                          (AUC.probabilities self pred')).
  { unfold AUC.probabilities, nd.sigmoid_all.
    destruct (AUC._from_logits self); [now apply agree_off_map | exact Ag]. }
  now rewrite (compute_auc_agree _ _ (nd.greater_scalar gt 0) _ Ag').
Qed.

(** ** The epoch count *)

Lemma iou_update_count (self : AdaptiveIoU.t) (pred gt : nd.ndarray Q) :
  AdaptiveIoU._epoch_batch_count (update self pred gt)
  = (AdaptiveIoU._epoch_batch_count self
     + if passes_guard gt then 1 else 0)%nat.
Proof.
  simpl. unfold AdaptiveIoU.update, passes_guard.
  destruct (np.all_zero _); simpl; [lia|].
  now destruct (AdaptiveIoU.threshold_search _ _ _).
Qed.

Lemma auc_update_count (self : AUC.t) (pred gt : nd.ndarray Q) :
  AUC._epoch_batch_count (update self pred gt)
  = (AUC._epoch_batch_count self + if passes_guard gt then 1 else 0)%nat.
Proof.
  simpl. unfold AUC.update, passes_guard.
  destruct (np.all_zero _); simpl; lia.
Qed.

(** X10.  Over any sequence of batches, the epoch count of either metric
    grows by exactly the number of batches in which some sample has a
    positive ground-truth pixel: the batches stopped by the guard are not
    counted, every other batch is counted once. *)
Theorem epoch_count_counts_batches_with_positives
        (batches : list (nd.ndarray Q * nd.ndarray Q))
        (a : AdaptiveIoU.t) (u : AUC.t) :
  AdaptiveIoU._epoch_batch_count (run_updates a batches)
  = (AdaptiveIoU._epoch_batch_count a
     + length (filter (fun b => passes_guard (snd b)) batches))%nat
  /\ AUC._epoch_batch_count (run_updates u batches)
     = (AUC._epoch_batch_count u
        + length (filter (fun b => passes_guard (snd b)) batches))%nat.
Proof.
  unfold run_updates. revert a u.
  induction batches as [|[pred gt] batches IH]; intros a u;
    cbn [fold_left filter fst snd length]; [split; lia|].
  destruct (IH (update a pred gt) (update u pred gt)) as [Ia Iu].
  rewrite Ia, Iu, iou_update_count, auc_update_count.
  destruct (passes_guard gt); simpl; split; lia.
Qed.

(** ** The range of the running scores *)

Lemma of_nat_succ (n : nat) : nd.of_nat (S n) == nd.of_nat n + 1.
Proof.
  unfold nd.of_nat. rewrite Nat2Z.inj_succ, <- Z.add_1_r, inject_Z_plus.
  reflexivity.
Qed.

Lemma fold_sum_bounds (a : list Q) (acc : Q) (n : nat) :
  0 <= acc <= nd.of_nat n ->
  Forall (fun v => 0 <= v <= 1) a ->
  0 <= fold_left Qplus a acc <= nd.of_nat (n + length a).
Proof.
  intros Hacc F. revert acc n Hacc.
  induction F as [|v a Hv _ IH]; intros acc n Hacc; simpl.
  - now rewrite Nat.add_0_r.
  - rewrite <- Nat.add_succ_comm. apply IH.
    rewrite of_nat_succ. lra.
Qed.

(** The mean of a non-empty array of values of [0, 1] is a number of
    [0, 1]. *)
Lemma mean_unit (a : list Q) :
  a <> [] -> Forall (fun v => 0 <= v <= 1) a -> unit_score (np.mean a).
Proof.
  intros N F. destruct a as [|x a]; [congruence|].
  unfold np.mean, np.sum. eexists. split; [reflexivity|].
  destruct (fold_sum_bounds (x :: a) 0 0) as [S0 S1]; trivial.
  { split; qconst. }
  apply ratio_in_unit; trivial.
  apply of_nat_pos. simpl. lia.
Qed.

(** No mean of values of [0, 1] beats a score of at least 1. *)
Lemma mean_not_above_one (a : list Q) (q : Q) :
  Forall (fun v => 0 <= v <= 1) a -> 1 <= q ->
  fgt (np.mean a) (Num q) = false.
Proof.
  intros F Hq. destruct a as [|x a]; [reflexivity|].
  destruct (mean_unit (x :: a)) as (m & -> & _ & Hm); [discriminate|exact F|].
  simpl. apply Qlt_b_false. lra.
Qed.

Lemma candidate_score_unit (self : AdaptiveIoU.t) (pred gt : nd.ndarray Q)
      (c : Q) :
  nd.same_shape pred gt = true -> passes_guard gt = true ->
  unit_score (AdaptiveIoU.candidate_score
                (AdaptiveIoU.probabilities self pred)
                (nd.greater_scalar gt 0)
                (nd.equal_scalar gt (AdaptiveIoU._ignore_label self)) c).
Proof.
  intros S G. unfold passes_guard in G. apply negb_true_iff in G.
  destruct (candidate_shapes self pred gt c S) as [Sp Si].
  apply some_area_positive in G.
  apply mean_unit; [now apply compute_iou_nonempty|].
  apply compute_iou_values_in_unit.
Qed.

Lemma ema_unit (beta : Q) (old new : fval) :
  0 <= beta <= 1 -> unit_score old -> unit_score new ->
  unit_score (ema beta old new).
Proof.
  intros [B0 B1] (e & -> & E0 & E1) (q & -> & Q0 & Q1).
  eexists. split; [reflexivity|].
  assert (0 <= beta * e) by (apply Qmult_le_0_compat; lra).
  assert (0 <= (1 - beta) * q) by (apply Qmult_le_0_compat; lra).
  assert (0 <= beta * (1 - e)) by (apply Qmult_le_0_compat; lra).
  assert (0 <= (1 - beta) * (1 - q)) by (apply Qmult_le_0_compat; lra).
  lra.
Qed.

Lemma epoch_sum_step (s : fval) (n : nat) (new : fval) :
  (exists x, s = Num x /\ 0 <= x <= nd.of_nat n) -> unit_score new ->
  exists x, fadd s new = Num x /\ 0 <= x <= nd.of_nat (n + 1).
Proof.
  intros (x & -> & X0 & X1) (q & -> & Q0 & Q1).
  eexists. split; [reflexivity|].
  rewrite Nat.add_1_r, of_nat_succ. lra.
Qed.

Lemma epoch_value_unit (s : fval) (n : nat) :
  (exists x, s = Num x /\ 0 <= x <= nd.of_nat n) ->
  unit_score (if Nat.ltb 0 n then fdiv_count s n else Num 0).
Proof.
  intros (x & -> & X0 & X1). destruct (Nat.ltb 0 n) eqn:E.
  - apply Nat.ltb_lt in E. eexists. split; [reflexivity|].
    apply ratio_in_unit; trivial. now apply of_nat_pos.
  - exists 0. split; [reflexivity | lra].
Qed.

Lemma iou_update_scores (self : AdaptiveIoU.t) (pred gt : nd.ndarray Q) :
  0 <= AdaptiveIoU._iou_beta self <= 1 ->
  nd.same_shape pred gt = true ->
  iou_scores_in_range self ->
  iou_scores_in_range (update self pred gt)
  /\ AdaptiveIoU._iou_beta (update self pred gt)
     = AdaptiveIoU._iou_beta self.
Proof.
  intros B S [E Sm]. simpl. unfold AdaptiveIoU.update.
  destruct (np.all_zero _) eqn:G; [now repeat split|].
  assert (G' : passes_guard gt = true)
    by (unfold passes_guard; now rewrite G).
  pose proof (threshold_search_best
                (AdaptiveIoU.candidate_score
                   (AdaptiveIoU.probabilities self pred)
                   (nd.greater_scalar gt 0)
                   (nd.equal_scalar gt (AdaptiveIoU._ignore_label self)))
                (AdaptiveIoU._iou_thresh self)
                (AdaptiveIoU._thresh_step self)) as Best.
  cbv zeta in Best.
  destruct (AdaptiveIoU.threshold_search _ _ _) as [m b].
  simpl in Best. destruct Best as [-> _].
  pose proof (candidate_score_unit self pred gt b S G') as U.
  split; [|reflexivity]. split; simpl.
  - now apply ema_unit.
  - now apply epoch_sum_step.
Qed.

(** X11.  The running scores of the adaptive metric stay in range.  With
    a score decay rate in [0, 1], starting from a state whose score EMA is
    in [0, 1] and whose epoch sum is between 0 and the epoch count (as
    after construction or a reset), after any sequence of batches with
    predictions and ground truth of one shape the score EMA and the value
    returned by [get_epoch_value] are numbers of [0, 1]: no [nan] and no
    division by a zero count. *)
Theorem iou_scores_stay_in_range
        (batches : list (nd.ndarray Q * nd.ndarray Q))
        (self : AdaptiveIoU.t) :
  0 <= AdaptiveIoU._iou_beta self <= 1 ->
  Forall (fun b => nd.same_shape (fst b) (snd b) = true) batches ->
  iou_scores_in_range self ->
  unit_score (AdaptiveIoU._ema_iou (run_updates self batches))
  /\ unit_score (get_epoch_value (run_updates self batches)).
Proof.
  intros B F I.
  enough (R : iou_scores_in_range (run_updates self batches)).
  { destruct R as [E Sm]. split; [exact E|]. now apply epoch_value_unit. }
  unfold run_updates. revert self B I.
  induction F as [|[pred gt] batches S _ IH]; intros self B I; [exact I|].
  cbn [fold_left fst snd]. simpl in S.
  destruct (iou_update_scores self pred gt B S I) as [I' Eb].
  apply IH; [now rewrite Eb | exact I'].
Qed.

Lemma compute_auc_values_in_unit (pred : nd.ndarray Q)
      (gm ign : nd.ndarray bool) :
  (forall g p, 0 <= pr_auc g p <= 1) ->
  Forall (fun v => 0 <= v <= 1) (_compute_auc pred gm ign).
Proof.
  intro A. unfold _compute_auc. rewrite auc_loop_filter.
  apply Forall_map, Forall_forall. intros pg _. apply A.
Qed.

Lemma auc_update_scores (self : AUC.t) (pred gt : nd.ndarray Q) :
  (forall g p, 0 <= pr_auc g p <= 1) ->
  0 <= AUC._beta self <= 1 ->
  nd.same_shape pred gt = true ->
  auc_scores_in_range self ->
  auc_scores_in_range (update self pred gt)
  /\ AUC._beta (update self pred gt) = AUC._beta self.
Proof.
  intros A B S [E Sm]. simpl. unfold AUC.update.
  destruct (np.all_zero _) eqn:G; [now repeat split|].
  assert (U : unit_score
                (np.mean (_compute_auc (AUC.probabilities self pred)
                            (nd.greater_scalar gt 0)
                            (nd.equal_scalar gt (AUC._ignore_label self))))).
  { apply mean_unit; [|now apply compute_auc_values_in_unit].
    intro Nil. apply compute_auc_empty in Nil; [congruence|].
    rewrite auc_probabilities_length. now apply same_shape_length. }
  split; [|reflexivity]. split; simpl.
  - now apply ema_unit.
  - now apply epoch_sum_step.
Qed.

(** X12.  The running scores of the ranking metric stay in range, as long
    as the curve area computed by the external routine is in [0, 1]: with
    a decay rate in [0, 1], from a state in range (as after construction
    or a reset) and over batches of one shape, the score EMA and the value
    returned by [get_epoch_value] are numbers of [0, 1]. *)
Theorem auc_scores_stay_in_range
        (batches : list (nd.ndarray Q * nd.ndarray Q)) (self : AUC.t) :
  (forall g p, 0 <= pr_auc g p <= 1) ->
  0 <= AUC._beta self <= 1 ->
  Forall (fun b => nd.same_shape (fst b) (snd b) = true) batches ->
  auc_scores_in_range self ->
  unit_score (AUC._ema_auc (run_updates self batches))
  /\ unit_score (get_epoch_value (run_updates self batches)).
Proof.
  intros A B F I.
  enough (R : auc_scores_in_range (run_updates self batches)).
  { destruct R as [E Sm]. split; [exact E|]. now apply epoch_value_unit. }
  unfold run_updates. revert self B I.
  induction F as [|[pred gt] batches S _ IH]; intros self B I; [exact I|].
  cbn [fold_left fst snd]. simpl in S.
  destruct (auc_update_scores self pred gt A B S I) as [I' Eb].
  apply IH; [now rewrite Eb | exact I'].
Qed.

(** ** Epoch statistics and the persistent state *)

(** X14.  The epoch accumulators never feed back into the persistent
    state: resetting them before an update changes neither the threshold
    nor the score EMA that the update produces (the two runs differ in the
    epoch sum and count only); right after a reset [get_epoch_value] is 0,
    and the reset itself keeps threshold and score EMA. *)
Theorem iou_reset_is_local (self : AdaptiveIoU.t) (pred gt : nd.ndarray Q) :
  reset_epoch_stats (update (reset_epoch_stats self) pred gt)
  = reset_epoch_stats (update self pred gt)
  /\ get_epoch_value (reset_epoch_stats self) = Num 0
  /\ AdaptiveIoU._iou_thresh (reset_epoch_stats self)
     = AdaptiveIoU._iou_thresh self
  /\ AdaptiveIoU._ema_iou (reset_epoch_stats self)
     = AdaptiveIoU._ema_iou self.
Proof.
  simpl. repeat split.
  unfold AdaptiveIoU.update, AdaptiveIoU.reset_epoch_stats,
    AdaptiveIoU.probabilities. simpl.
  destruct (np.all_zero _); [reflexivity|].
  now destruct (AdaptiveIoU.threshold_search _ _ _).
Qed.

(** X15.  The same for the ranking metric. *)
Theorem auc_reset_is_local (self : AUC.t) (pred gt : nd.ndarray Q) :
  reset_epoch_stats (update (reset_epoch_stats self) pred gt)
  = reset_epoch_stats (update self pred gt)
  /\ get_epoch_value (reset_epoch_stats self) = Num 0
  /\ AUC._ema_auc (reset_epoch_stats self) = AUC._ema_auc self.
Proof.
  simpl. repeat split.
  unfold AUC.update, AUC.reset_epoch_stats, AUC.probabilities. simpl.
  now destruct (np.all_zero _).
Qed.

(** ** The threshold arithmetic in binary64 *)

Lemma threshold_search_candidates (score : Q -> fval) (t step : Q) :
  AdaptiveIoU.threshold_search score t step
  = AdaptiveIoU.search_candidates score t (t - step) (t + step).
Proof. reflexivity. Qed.

(** With the exact rounding, [update_fl] is [update]. *)
Lemma update_fl_exact (self : AdaptiveIoU.t) (pred gt : nd.ndarray Q) :
  AdaptiveIoU.update_fl (fun x => x) self pred gt = update self pred gt.
Proof. reflexivity. Qed.

Lemma search_candidates_eq (score : Q -> fval) (t lower upper : Q) :
  AdaptiveIoU.search_candidates score t lower upper
  = if fgt (score lower) (score t)
    then if fgt (score upper) (score lower)
         then (score upper, upper) else (score lower, lower)
    else if fgt (score upper) (score t)
         then (score upper, upper) else (score t, t).
Proof.
  unfold AdaptiveIoU.search_candidates. simpl.
  destruct (fgt (score lower) (score t)); simpl;
    now destruct (fgt (score upper) _).
Qed.

Lemma search_candidates_snd (score : Q -> fval) (t lower upper : Q) :
  let b := snd (AdaptiveIoU.search_candidates score t lower upper) in
  b = t \/ b = lower \/ b = upper.
Proof.
  cbv zeta. rewrite search_candidates_eq.
  destruct (fgt (score lower) (score t));
    destruct (fgt (score upper) _); simpl; auto.
Qed.



Lemma search_candidates_tie (score : Q -> fval) (t lower upper : Q) :
  fgt (score lower) (score t) = false ->
  fgt (score upper) (score t) = false ->
  AdaptiveIoU.search_candidates score t lower upper = (score t, t).
Proof.
  intros E1 E2. now rewrite search_candidates_eq, E1, E2.
Qed.

(** The new threshold of [update_fl]: the old one when the guard returns,
    otherwise the rounded blend with the selected candidate. *)
Lemma update_fl_threshold (fl : Q -> Q) (self : AdaptiveIoU.t)
      (pred gt : nd.ndarray Q) :
  let t := AdaptiveIoU._iou_thresh self in
  let step := AdaptiveIoU._thresh_step self in
  let score :=
    AdaptiveIoU.candidate_score
      (AdaptiveIoU.probabilities self pred) (nd.greater_scalar gt 0)
      (nd.equal_scalar gt (AdaptiveIoU._ignore_label self)) in
  AdaptiveIoU._iou_thresh (AdaptiveIoU.update_fl fl self pred gt)
  = if np.all_zero (nd.sum_excl0 (nd.greater_scalar gt 0)) then t
    else AdaptiveIoU.blend_fl fl (AdaptiveIoU._thresh_beta self) t
           (snd (AdaptiveIoU.search_candidates score t (fl (t - step))
                                               (fl (t + step)))).
Proof.
  cbv zeta. unfold AdaptiveIoU.update_fl.
  destruct (np.all_zero _); [reflexivity|].
  now destruct (AdaptiveIoU.search_candidates _ _ _ _).
Qed.

Lemma mul_bound (x y X Y : Q) :
  0 <= x <= X -> 0 <= y <= Y -> x * y <= X * Y.
Proof. intros [? ?] [? ?]. nra. Qed.

Lemma abs_split (x y : Q) : Qabs x <= Qabs (x - y) + Qabs y.
Proof.
  setoid_replace x with ((x - y) + y) at 1 by ring. apply Qabs_triangle.
Qed.

(** The rounded blend of [t] with [b], against the exact blend of [t]
    with the exact candidate [b0] that [b] approximates: with every
    rounding within relative error [u], the two differ by at most
    [7 u W], for any [W] that bounds [|t|] and [|b0|]. *)
Lemma blend_fl_error (fl : Q -> Q) (u beta t b b0 W : Q) :
  0 <= u <= 1 # 8 -> 0 <= beta <= 1 ->
  Qabs t <= W -> Qabs b0 <= W ->
  Qabs (b - b0) <= u * Qabs b0 ->
  Forall (rounds_within fl u) (AdaptiveIoU.blend_operands fl beta t b) ->
  Qabs (AdaptiveIoU.blend_fl fl beta t b - (beta * t + (1 - beta) * b0))
  <= 7 * u * W.
Proof.
  intros [U0 U1] [B0 B1] HT HB Hb F.
  unfold AdaptiveIoU.blend_operands in F.
  inversion F as [|? ? Ha F1]; subst. inversion F1 as [|? ? Hc F2]; subst.
  inversion F2 as [|? ? Hd F3]; subst. inversion F3 as [|? ? Hn _]; subst.
  clear F F1 F2 F3. unfold rounds_within in *. unfold AdaptiveIoU.blend_fl.
  set (a := fl (beta * t)) in *. set (c := fl (1 - beta)) in *.
  set (d := fl (c * b)) in *. set (n := fl (a + d)) in *.
  pose proof (Qabs_nonneg t) as Pt. pose proof (Qabs_nonneg b0) as Pb0.
  assert (W0 : 0 <= W) by lra.
  rewrite Qabs_Qmult, (Qabs_pos beta) in Ha by exact B0.
  rewrite (Qabs_pos (1 - beta)) in Hc by lra.
  rewrite Qabs_Qmult in Hd.
  pose proof (Qabs_nonneg (a - beta * t)) as Pea.
  pose proof (Qabs_nonneg (c - (1 - beta))) as Pec.
  pose proof (Qabs_nonneg (b - b0)) as Peb.
  pose proof (Qabs_nonneg (d - c * b)) as Ped.
  pose proof (Qabs_nonneg (n - (a + d))) as Pen.
  pose proof (Qabs_nonneg c) as Pc. pose proof (Qabs_nonneg b) as Pb.
  assert (Ea : Qabs (a - beta * t) <= u * W) by nra.
  assert (Aa : Qabs a <= (9 # 8) * W).
  { pose proof (abs_split a (beta * t)) as S.
    rewrite (Qabs_Qmult beta t), (Qabs_pos beta) in S by exact B0. nra. }
  assert (Ec : Qabs (c - (1 - beta)) <= u) by nra.
  assert (Ac : Qabs c <= 9 # 8).
  { pose proof (abs_split c (1 - beta)) as S.
    rewrite (Qabs_pos (1 - beta)) in S by lra. lra. }
  assert (Eb : Qabs (b - b0) <= u * W) by nra.
  assert (Ab : Qabs b <= (9 # 8) * W).
  { pose proof (abs_split b b0) as S. nra. }
  assert (Acb : Qabs c * Qabs b <= (81 # 64) * W).
  { pose proof (mul_bound (Qabs c) (Qabs b) (9 # 8) ((9 # 8) * W)) as M.
    lra. }
  assert (Ed : Qabs (d - c * b) <= (81 # 64) * (u * W)) by nra.
  assert (Ad : Qabs d <= (729 # 512) * W).
  { pose proof (abs_split d (c * b)) as S. rewrite (Qabs_Qmult c b) in S.
    nra. }
  assert (En : Qabs (n - (a + d)) <= (1305 # 512) * (u * W)).
  { pose proof (Qabs_triangle a d) as S. pose proof (Qabs_nonneg (a + d)).
    nra. }
  assert (T1 : Qabs (c * (b - b0)) <= (9 # 8) * (u * W)).
  { rewrite Qabs_Qmult.
    pose proof (mul_bound (Qabs c) (Qabs (b - b0)) (9 # 8) (u * W)). lra. }
  assert (T2 : Qabs ((c - (1 - beta)) * b0) <= u * W).
  { rewrite Qabs_Qmult.
    pose proof (mul_bound (Qabs (c - (1 - beta))) (Qabs b0) u W). lra. }
  setoid_replace (n - (beta * t + (1 - beta) * b0))
    with ((n - (a + d)) + ((a - beta * t) + ((d - c * b)
          + (c * (b - b0) + (c - (1 - beta)) * b0)))) by ring.
  eapply Qle_trans; [apply Qabs_triangle|].
  eapply Qle_trans; [apply Qplus_le_r, Qabs_triangle|].
  eapply Qle_trans; [apply Qplus_le_r, Qplus_le_r, Qabs_triangle|].
  eapply Qle_trans;
    [apply Qplus_le_r, Qplus_le_r, Qplus_le_r, Qabs_triangle|].
  assert (UW : 0 <= u * W) by nra.
  lra.
Qed.

(** One candidate: the rounded blend against the old threshold. *)
Lemma blend_fl_move (fl : Q -> Q) (u beta t step b b0 : Q) :
  0 <= u <= 1 # 8 -> 0 <= beta <= 1 -> 0 <= step ->
  Qabs (b0 - t) <= step ->
  Qabs (b - b0) <= u * Qabs b0 ->
  Forall (rounds_within fl u) (AdaptiveIoU.blend_operands fl beta t b) ->
  Qabs (AdaptiveIoU.blend_fl fl beta t b - t)
  <= (1 - beta) * step + 7 * u * (Qabs t + step).
Proof.
  intros U B Hs Hb0 Hb F.
  assert (HB : Qabs b0 <= Qabs t + step).
  { pose proof (abs_split b0 t). rewrite Qplus_comm. lra. }
  assert (HT : Qabs t <= Qabs t + step) by lra.
  pose proof (blend_fl_error fl u beta t b b0 _ U B HT HB Hb F) as E.
  assert (M : Qabs (beta * t + (1 - beta) * b0 - t) <= (1 - beta) * step).
  { setoid_replace (beta * t + (1 - beta) * b0 - t)
      with ((1 - beta) * (b0 - t)) by ring.
    rewrite Qabs_Qmult, (Qabs_pos (1 - beta)) by lra.
    pose proof (Qabs_nonneg (b0 - t)). nra. }
  pose proof (abs_split (AdaptiveIoU.blend_fl fl beta t b - t)
                        (beta * t + (1 - beta) * b0 - t)) as S.
  setoid_replace (AdaptiveIoU.blend_fl fl beta t b - t
                  - (beta * t + (1 - beta) * b0 - t))
    with (AdaptiveIoU.blend_fl fl beta t b
          - (beta * t + (1 - beta) * b0)) in S by ring.
  lra.
Qed.

(** C2 (amended).  With thresholdEmaRate in [0, 1] and a non-negative
    thresholdStep, when every rounding of the threshold arithmetic (lines
    55 and 61) has relative error at most [u <= 1/8], one update moves the
    threshold by at most
    (1 - thresholdEmaRate) * thresholdStep + 7 u (|threshold| + thresholdStep):
    the stated bound, up to the rounding of the blend. *)
Theorem threshold_move_rounded (fl : Q -> Q) (u : Q) (self : AdaptiveIoU.t)
        (pred gt : nd.ndarray Q) :
  0 <= AdaptiveIoU._thresh_step self ->
  0 <= AdaptiveIoU._thresh_beta self <= 1 ->
  0 <= u <= 1 # 8 ->
  Forall (rounds_within fl u) (AdaptiveIoU.rounding_operands fl self) ->
  Qabs (AdaptiveIoU._iou_thresh (AdaptiveIoU.update_fl fl self pred gt)
        - AdaptiveIoU._iou_thresh self)
  <= (1 - AdaptiveIoU._thresh_beta self) * AdaptiveIoU._thresh_step self
     + 7 * u * (Qabs (AdaptiveIoU._iou_thresh self)
                + AdaptiveIoU._thresh_step self).
Proof.
  intros Hs Hb U F. rewrite update_fl_threshold.
  unfold AdaptiveIoU.rounding_operands in F.
  set (t := AdaptiveIoU._iou_thresh self) in *.
  set (step := AdaptiveIoU._thresh_step self) in *.
  set (beta := AdaptiveIoU._thresh_beta self) in *.
  pose proof (Qabs_nonneg t) as Pt.
  assert (Hm : 0 <= (1 - beta) * step) by (apply Qmult_le_0_compat; lra).
  assert (Hu : 0 <= 7 * u * (Qabs t + step)) by nra.
  apply Forall_app in F as [F0 F]. apply Forall_app in F as [Ft F].
  apply Forall_app in F as [Flo Fhi].
  inversion F0 as [|? ? Rlo F1]; subst. inversion F1 as [|? ? Rhi _]; subst.
  clear F0 F1. unfold rounds_within in Rlo, Rhi.
  destruct (np.all_zero _).
  { setoid_replace (t - t) with 0 by ring. simpl. lra. }
  destruct (search_candidates_snd
              (AdaptiveIoU.candidate_score
                 (AdaptiveIoU.probabilities self pred)
                 (nd.greater_scalar gt 0)
                 (nd.equal_scalar gt (AdaptiveIoU._ignore_label self)))
              t (fl (t - step)) (fl (t + step))) as [-> | [-> | ->]].
  - apply (blend_fl_move fl u beta t step t t); trivial.
    + setoid_replace (t - t) with 0 by ring. simpl. exact Hs.
    + setoid_replace (t - t) with 0 by ring. simpl. nra.
  - apply (blend_fl_move fl u beta t step (fl (t - step)) (t - step));
      trivial.
    setoid_replace (t - step - t) with (- step) by ring.
    rewrite Qabs_opp, Qabs_pos by exact Hs. apply Qle_refl.
  - apply (blend_fl_move fl u beta t step (fl (t + step)) (t + step));
      trivial.
    setoid_replace (t + step - t) with step by ring.
    rewrite Qabs_pos by exact Hs. apply Qle_refl.
Qed.

(** X13.  When the current threshold scores a perfect 1 on the batch, no
    perturbed candidate can score strictly more, so none is adopted: the
    new threshold is the old one (guard) or the rounded blend of the old
    threshold with itself. *)
Theorem perfect_score_adopts_no_candidate (fl : Q -> Q)
        (self : AdaptiveIoU.t) (pred gt : nd.ndarray Q) (q : Q) :
  AdaptiveIoU.candidate_score
    (AdaptiveIoU.probabilities self pred) (nd.greater_scalar gt 0)
    (nd.equal_scalar gt (AdaptiveIoU._ignore_label self))
    (AdaptiveIoU._iou_thresh self) = Num q ->
  q == 1 ->
  let t := AdaptiveIoU._iou_thresh self in
  let t' := AdaptiveIoU._iou_thresh (AdaptiveIoU.update_fl fl self pred gt) in
  t' = t \/ t' = AdaptiveIoU.blend_fl fl (AdaptiveIoU._thresh_beta self) t t.
Proof.
  intros E Q1. cbv zeta. rewrite update_fl_threshold.
  destruct (np.all_zero _); [now left|]. right.
  rewrite search_candidates_tie; [reflexivity| |];
    rewrite E; apply mean_not_above_one;
    (apply compute_iou_values_in_unit || lra).
Qed.


End MetricsAtLarge.

(** ** Evaluation of the further properties on concrete batches *)

#[local] Existing Instance rational_backend.

Lemma compute_iou_sizes_witness :
  nd.same_shape [[true; false]; [false; false]]
                [[true; true]; [false; false]] = true
  /\ (length (_compute_iou [[true; false]; [false; false]]
                           [[true; true]; [false; false]]
                           [[false; false]; [false; false]] false) <= 2)%nat
  /\ length (_compute_iou [[true; false]; [false; false]]
                          [[true; true]; [false; false]]
                          [[false; false]; [false; false]] true) = 2%nat.
Proof.
  split; [reflexivity|].
  exact (compute_iou_sizes [[true; false]; [false; false]]
                           [[true; true]; [false; false]]
                           [[false; false]; [false; false]]
                           eq_refl eq_refl).
Defined.

Lemma compute_iou_ignores_masked_predictions_witness :
  agree_off [[false; true]] [[true; true]] [[true; false]]
  /\ _compute_iou [[true; true]] [[true; false]] [[false; true]] false
     = _compute_iou [[true; false]] [[true; false]] [[false; true]] false.
Proof.
  assert (Ag : agree_off [[false; true]] [[true; true]] [[true; false]])
    by (unfold agree_off; pointwise).
  split; [exact Ag|].
  exact (compute_iou_ignores_masked_predictions
           [[true; true]] [[true; false]] [[true; false]] [[false; true]]
           false Ag).
Defined.

Lemma compute_iou_perfect_prediction_witness :
  agree_off [[false; true]] [[true; true]] [[true; false]]
  /\ disjoint_masks [[true; false]] [[false; true]]
  /\ Forall (fun v => v == 1)
            (_compute_iou [[true; true]] [[true; false]] [[false; true]]
                          false).
Proof.
  assert (Ag : agree_off [[false; true]] [[true; true]] [[true; false]])
    by (unfold agree_off; pointwise).
  assert (D : disjoint_masks [[true; false]] [[false; true]])
    by (unfold disjoint_masks; pointwise).
  split; [exact Ag|]. split; [exact D|].
  exact (compute_iou_perfect_prediction
           [[true; true]] [[true; false]] [[false; true]] Ag D).
Defined.

Lemma compute_iou_disjoint_prediction_witness :
  disjoint_masks [[false; true]] [[true; false]]
  /\ Forall (fun v => v == 0)
            (_compute_iou [[false; true]] [[true; false]] [[false; false]]
                          false).
Proof.
  assert (D : disjoint_masks [[false; true]] [[true; false]])
    by (unfold disjoint_masks; pointwise).
  split; [exact D|].
  exact (compute_iou_disjoint_prediction
           [[false; true]] [[true; false]] [[false; false]] D).
Defined.

Lemma compute_auc_scores_positive_samples_witness :
  length (_compute_auc [[1 # 2; 1 # 3]; [1 # 4; 1 # 5]]
                       [[false; false]; [true; false]]
                       [[false; false]; [false; true]])
  = 1%nat.
Proof.
  exact (proj2 (compute_auc_scores_positive_samples
                  [[1 # 2; 1 # 3]; [1 # 4; 1 # 5]]
                  [[false; false]; [true; false]]
                  [[false; false]; [false; true]] eq_refl eq_refl)).
Defined.

Lemma compute_auc_ignores_masked_predictions_witness :
  agree_off [[false; true]] [[1 # 2; 1 # 3]] [[1 # 2; 9 # 10]]
  /\ _compute_auc [[1 # 2; 1 # 3]] [[true; false]] [[false; true]]
     = _compute_auc [[1 # 2; 9 # 10]] [[true; false]] [[false; true]].
Proof.
  assert (Ag : agree_off [[false; true]] [[1 # 2; 1 # 3]] [[1 # 2; 9 # 10]])
    by (unfold agree_off; pointwise).
  split; [exact Ag|].
  exact (compute_auc_ignores_masked_predictions
           [[1 # 2; 1 # 3]] [[1 # 2; 9 # 10]] [[true; false]]
           [[false; true]] Ag).
Defined.

Lemma iou_update_ignores_masked_predictions_witness :
  agree_off (nd.equal_scalar [[1; -1]] (-1))
            [[9 # 10; 1 # 10]] [[9 # 10; 7 # 10]]
  /\ update (AdaptiveIoU.default false) [[9 # 10; 1 # 10]] [[1; -1]]
     = update (AdaptiveIoU.default false) [[9 # 10; 7 # 10]] [[1; -1]].
Proof.
  assert (Ag : agree_off (nd.equal_scalar [[1; -1]] (-1))
                         [[9 # 10; 1 # 10]] [[9 # 10; 7 # 10]])
    by (unfold agree_off; simpl; pointwise).
  split; [exact Ag|].
  exact (iou_update_ignores_masked_predictions
           (AdaptiveIoU.default false) _ _ [[1; -1]] Ag).
Defined.

Lemma auc_update_ignores_masked_predictions_witness :
  agree_off (nd.equal_scalar [[1; -1]] (-1))
            [[9 # 10; 1 # 10]] [[9 # 10; 7 # 10]]
  /\ update (AUC.default false) [[9 # 10; 1 # 10]] [[1; -1]]
     = update (AUC.default false) [[9 # 10; 7 # 10]] [[1; -1]].
Proof.
  assert (Ag : agree_off (nd.equal_scalar [[1; -1]] (-1))
                         [[9 # 10; 1 # 10]] [[9 # 10; 7 # 10]])
    by (unfold agree_off; simpl; pointwise).
  split; [exact Ag|].
  exact (auc_update_ignores_masked_predictions
           (AUC.default false) _ _ [[1; -1]] Ag).
Defined.

Lemma iou_scores_stay_in_range_witness :
  0 <= 9 # 10 <= 1
  /\ iou_scores_in_range (AdaptiveIoU.default false)
  /\ unit_score
       (get_epoch_value
          (run_updates (AdaptiveIoU.default false)
                       [(scenario_pred, scenario_gt);
                        ([[1 # 10; 2 # 10]], [[0; -1]]);
                        ([[1 # 10; 2 # 10]], [[0; 1]])])).
Proof.
  assert (B : 0 <= 9 # 10 <= 1) by (split; qconst).
  assert (I : iou_scores_in_range (AdaptiveIoU.default false)).
  { split; [exists 0; split; [reflexivity | split; qconst]|].
    exists 0. split; [reflexivity | split; qconst]. }
  split; [exact B|]. split; [exact I|].
  refine (proj2 (iou_scores_stay_in_range _ (AdaptiveIoU.default false)
                   B _ I)).
  pointwise.
Defined.

Lemma auc_scores_stay_in_range_witness :
  (forall g p, 0 <= pr_auc g p <= 1)
  /\ 0 <= 9 # 10 <= 1
  /\ auc_scores_in_range (AUC.default false)
  /\ unit_score
       (AUC._ema_auc
          (run_updates (AUC.default false)
                       [([[1 # 10; 2 # 10]], [[0; -1]]);
                        ([[1 # 10; 2 # 10]], [[0; 1]])])).
Proof.
  assert (A : forall g p, 0 <= pr_auc g p <= 1)
    by (intros g p; simpl; split; qconst).
  assert (B : 0 <= 9 # 10 <= 1) by (split; qconst).
  assert (I : auc_scores_in_range (AUC.default false)).
  { split; [exists 0; split; [reflexivity | split; qconst]|].
    exists 0. split; [reflexivity | split; qconst]. }
  split; [exact A|]. split; [exact B|]. split; [exact I|].
  refine (proj1 (auc_scores_stay_in_range _ (AUC.default false) A B _ I)).
  pointwise.
Defined.


(** ** The threshold arithmetic on binary64 values *)

Set Warnings "-inexact-float".

(** [round64] against the binary64 arithmetic of the kernel: the default
    arguments as Python reads them, and the four operations of line 61 on
    them when the upper candidate is selected. *)
Example round64_agrees_with_binary64 :
  round64 (4 # 10) = Q_of_float 0.4%float
  /\ round64 (25 # 1000) = Q_of_float 0.025%float
  /\ round64 (99 # 100) = Q_of_float 0.99%float
  /\ round64 (Q_of_float 0.4%float + Q_of_float 0.025%float)
     = Q_of_float (0.4 + 0.025)%float
  /\ AdaptiveIoU.blend_fl round64 (Q_of_float 0.99%float)
       (Q_of_float 0.4%float) (Q_of_float (0.4 + 0.025)%float)
     = Q_of_float (0.99 * 0.4 + (1 - 0.99) * (0.4 + 0.025))%float
  /\ Q_of_float (0.99 * 0.4 + (1 - 0.99) * (0.4 + 0.025))%float
     = Q_of_float 0.40025000000000005%float.
Proof. repeat split; vm_compute; reflexivity. Qed.

(** With binary64 arithmetic the blend of a threshold with itself need not
    return it. *)
Example blend_with_itself_rounds :
  AdaptiveIoU.blend_fl round64 (round64 (99 # 100)) (round64 (65 # 100))
                       (round64 (65 # 100))
  = Q_of_float (0.99 * 0.65 + (1 - 0.99) * 0.65)%float
  /\ AdaptiveIoU.blend_fl round64 (round64 (99 # 100)) (round64 (65 # 100))
                          (round64 (65 # 100))
     < round64 (65 # 100).
Proof. split; [vm_compute; reflexivity | qdecide]. Qed.

(** C2, as stated, fails on the program's own arithmetic: with the default
    arguments, pred = [[0.41, 0.9]] and gt = [[0, 1]] the upper candidate
    wins and line 61 takes the threshold from 0.4 to 0.40025000000000005,
    a move of 2.50000000000028e-4 where (1 - thresh_beta) * thresh_step
    on the stored values is 2.5000000000000002e-4. *)
Lemma threshold_move_exceeds_stated_bound :
  let self := AdaptiveIoU.default64 false in
  let pred := [[41 # 100; 9 # 10]] in
  let gt := [[0; 1]] in
  ~ (Qabs (AdaptiveIoU._iou_thresh
             (AdaptiveIoU.update_fl round64 self pred gt)
           - AdaptiveIoU._iou_thresh self)
     <= (1 - AdaptiveIoU._thresh_beta self) * AdaptiveIoU._thresh_step self).
Proof.
  cbv zeta. apply Qlt_not_le. qdecide.
Qed.

Example threshold_after_rounded_update :
  AdaptiveIoU._iou_thresh
    (AdaptiveIoU.update_fl round64 (AdaptiveIoU.default64 false)
                           [[41 # 100; 9 # 10]] [[0; 1]])
  = Q_of_float 0.40025000000000005%float.
Proof. vm_compute. reflexivity. Qed.

(** The ranges of the amended bound are needed already in exact
    arithmetic: with a negative step the stated bound is negative, and the
    same batch moves the threshold by the positive amount
    (1 - thresh_beta) * |thresh_step|. *)
Example negative_step_exceeds_stated_bound :
  let self := AdaptiveIoU.init (4 # 10) (-25 # 1000) (99 # 100) (9 # 10)
                               (-1) false in
  (1 - AdaptiveIoU._thresh_beta self) * AdaptiveIoU._thresh_step self
  < Qabs (AdaptiveIoU._iou_thresh
            (AdaptiveIoU.update_fl (fun x => x) self [[41 # 100; 9 # 10]]
                                   [[0; 1]])
          - AdaptiveIoU._iou_thresh self).
Proof. cbv zeta. qdecide. Qed.

Lemma threshold_move_rounded_witness :
  let self := AdaptiveIoU.default64 false in
  let u := 1 # 9007199254740992 in
  0 <= AdaptiveIoU._thresh_step self
  /\ 0 <= AdaptiveIoU._thresh_beta self <= 1
  /\ 0 <= u <= 1 # 8
  /\ Forall (rounds_within round64 u)
            (AdaptiveIoU.rounding_operands round64 self)
  /\ Qabs (AdaptiveIoU._iou_thresh
             (AdaptiveIoU.update_fl round64 self [[41 # 100; 9 # 10]]
                                    [[0; 1]])
           - AdaptiveIoU._iou_thresh self)
     <= (1 - AdaptiveIoU._thresh_beta self) * AdaptiveIoU._thresh_step self
        + 7 * u * (Qabs (AdaptiveIoU._iou_thresh self)
                   + AdaptiveIoU._thresh_step self).
Proof.
  cbv zeta.
  assert (Hs : 0 <= AdaptiveIoU._thresh_step (AdaptiveIoU.default64 false))
    by qdecide.
  assert (Hb : 0 <= AdaptiveIoU._thresh_beta (AdaptiveIoU.default64 false)
               <= 1) by (split; qdecide).
  assert (U : 0 <= 1 # 9007199254740992 <= 1 # 8) by (split; qdecide).
  assert (F : Forall (rounds_within round64 (1 # 9007199254740992))
                (AdaptiveIoU.rounding_operands
                   round64 (AdaptiveIoU.default64 false)))
    by (repeat (apply Forall_cons || apply Forall_nil); qdecide).
  split; [exact Hs|]. split; [exact Hb|]. split; [exact U|].
  split; [exact F|].
  exact (threshold_move_rounded round64 _ (AdaptiveIoU.default64 false)
           [[41 # 100; 9 # 10]] [[0; 1]] Hs Hb U F).
Defined.


Lemma perfect_score_adopts_no_candidate_witness :
  let self := AdaptiveIoU.init (round64 (65 # 100)) (round64 (25 # 1000))
                               (round64 (99 # 100)) (round64 (9 # 10))
                               (-1) false in
  let t' := AdaptiveIoU._iou_thresh
              (AdaptiveIoU.update_fl round64 self [[1 # 10; 9 # 10]]
                                     [[0; 1]]) in
  t' = AdaptiveIoU._iou_thresh self
  \/ t' = AdaptiveIoU.blend_fl round64 (round64 (99 # 100))
                               (round64 (65 # 100)) (round64 (65 # 100)).
Proof.
  cbv zeta.
  refine (perfect_score_adopts_no_candidate round64
            (AdaptiveIoU.init (round64 (65 # 100)) (round64 (25 # 1000))
                              (round64 (99 # 100)) (round64 (9 # 10))
                              (-1) false)
            [[1 # 10; 9 # 10]] [[0; 1]] ((1 # 2) / (1 # 2) / 1) _ _).
  - vm_compute. reflexivity.
  - reflexivity.
Defined.

